(** * scripts/validate_min_versions_in_sync.py

    A shallow embedding of the pre-commit script that checks that the
    minimum versions of the optional dependencies agree between the CI
    environment file, [pandas/compat/_optional.py] and [setup.cfg],
    together with the properties of its readers and of its comparator.

    Python values are modelled as follows.
    - [str] is [string]; a character is a code point below 256.
    - an exception that nothing catches is a [Raise] result.
    - the dictionaries the script builds are [gmap string string]; the
      [VERSIONS] table, which is iterated in insertion order, is an
      association list.
    - [str.casefold] is a parameter of the development. *)

From Stdlib Require Import Ascii String.
From stdpp Require Import gmap strings list fin_maps.

(** ** Exceptions *)

Inductive exception : Type :=
  | KeyError (key : string)
  | ValueError
  | StopIteration.

Inductive result (A : Type) : Type :=
  | Ok (a : A)
  | Raise (e : exception).

Arguments Ok {A} a.
Arguments Raise {A} e.

#[global] Instance result_ret : MRet result := λ A a, Ok a.

#[global] Instance result_bind : MBind result := λ A B k r,
  match r with
  | Ok a => k a
  | Raise e => Raise e
  end.

Definition raises {A : Type} (r : result A) : Prop :=
  match r with
  | Ok _ => False
  | Raise _ => True
  end.

(** ** The [str] methods the script uses *)

Module Str.

Definition newline : string := String "010"%char "".

(** [c.isspace()] for a code point below 256. *)
Definition isspace (c : ascii) : bool :=
  let n := nat_of_ascii c in
  ((9 <=? n) && (n <=? 13)) || ((28 <=? n) && (n <=? 32))
  || (n =? 133) || (n =? 160).

(** [s.startswith(p)]. *)
Fixpoint startswith (p s : string) : bool :=
  match p, s with
  | "", _ => true
  | String a p', String b s' => if decide (a = b) then startswith p' s' else false
  | String _ _, "" => false
  end.

(** [s.endswith(p)]. *)
Fixpoint endswith (p s : string) : bool :=
  bool_decide (s = p)
  || match s with
     | "" => false
     | String _ s' => endswith p s'
     end.

(** [sub in s]. *)
Fixpoint contains (sub s : string) : bool :=
  startswith sub s
  || match s with
     | "" => false
     | String _ s' => contains sub s'
     end.

(** [s[n:]]. *)
Fixpoint slice_from (n : nat) (s : string) : string :=
  match n, s with
  | O, _ => s
  | S _, "" => ""
  | S k, String _ s' => slice_from k s'
  end.

Fixpoint lstrip (s : string) : string :=
  match s with
  | "" => ""
  | String c s' => if isspace c then lstrip s' else s
  end.

Fixpoint rstrip (s : string) : string :=
  match s with
  | "" => ""
  | String c s' =>
      match rstrip s' with
      | "" => if isspace c then "" else String c ""
      | r => String c r
      end
  end.

(** [s.strip()]. *)
Definition strip (s : string) : string := rstrip (lstrip s).

(** [s.split(sep)] for a non-empty [sep]: the text is scanned from the
    left; where [sep] starts, the current piece ends and the scan
    resumes behind the separator.  [skip] counts the characters of a
    separator that are still to be passed over. *)
Fixpoint split_from (sep : string) (skip : nat) (s : string) : list string :=
  match s with
  | "" => [""]
  | String c s' =>
      match skip with
      | S k => split_from sep k s'
      | O =>
          if startswith sep s
          then "" :: split_from sep (String.length sep - 1) s'
          else match split_from sep 0 s' with
               | piece :: pieces => String c piece :: pieces
               | [] => [String c ""]
               end
      end
  end.

Definition split (sep s : string) : list string := split_from sep 0 s.

(** [s.count(sep)]: the occurrences of [sep] that do not overlap,
    counted from the left. *)
Fixpoint count_from (sep : string) (skip : nat) (s : string) : nat :=
  match s with
  | "" => 0
  | String _ s' =>
      match skip with
      | S k => count_from sep k s'
      | O =>
          if startswith sep s
          then S (count_from sep (String.length sep - 1) s')
          else count_from sep 0 s'
      end
  end.

Definition count (sep s : string) : nat := count_from sep 0 s.

End Str.

(** [a, b = parts]: unpacking into two names. *)
Definition unpack2 (parts : list string) : result (string * string) :=
  match parts with
  | [a; b] => Ok (a, b)
  | _ => Raise ValueError
  end.

(** [d[key]] on a dictionary. *)
Definition getitem {V : Type} (d : gmap string V) (key : string) : result V :=
  match d !! key with
  | Some v => Ok v
  | None => Raise (KeyError key)
  end.

(** [d.pop(key)] on a dictionary, for its effect on [d]. *)
Definition pop (key : string) (d : gmap string string)
  : result (gmap string string) :=
  match d !! key with
  | Some _ => Ok (delete key d)
  | None => Raise (KeyError key)
  end.

(** ** The module-level constants *)

Definition EXCLUDE_DEPS : gset string := {["tzdata"]}.

(** [fnmatch] of a file name against [actions-*-minimum_versions.yaml]. *)
Definition matches_ci_pattern (name : string) : bool :=
  let head := "actions-" in
  let tail := "-minimum_versions.yaml" in
  (String.length head + String.length tail <=? String.length name)%nat
  && Str.startswith head name
  && Str.endswith tail name.

(** [pathlib.Path("ci/deps").absolute().glob(...)], over the names of the
    directory in the order in which the directory yields them. *)
Definition glob_ci_deps (directory : list string) : list string :=
  filter (λ name, Is_true (matches_ci_pattern name)) directory.

(** [next(iterator)]. *)
Definition next {A : Type} (iterator : list A) : result A :=
  match iterator with
  | x :: _ => Ok x
  | [] => Raise StopIteration
  end.

Definition CI_PATH (directory : list string) : result string :=
  next (glob_ci_deps directory).

(** ** [_optional.VERSIONS], a dictionary in insertion order *)

Module Table.

Abbreviation t := (list (string * string)).

Definition keys (d : t) : list string := d.*1.

(** [d.pop(key)], for its effect on [d].  A dictionary has a key once:
    the filter removes that one entry. *)
Definition pop (key : string) (d : t) : result t :=
  if decide (key ∈ keys d)
  then Ok (filter (λ kv, kv.1 ≠ key) d)
  else Raise (KeyError key).

End Table.

(** ** The readers and the comparator *)

Record ci_state : Type := CiState {
  seen_required : bool;
  seen_optional : bool;
  required_deps : gmap string string;
  optional_deps : gmap string string;
}.

Definition ci_start : ci_state := CiState false false ∅ ∅.

(** What [main] leaves behind: the texts written to [sys.stdout], one per
    call of [out.write], and the status passed to [sys.exit]. *)
Record exit : Type := Exit {
  written : list string;
  status : nat;
}.

Section Script.

(** [str.casefold]. *)
Variable casefold : string → string.

(** The order in which a [for] loop goes through a [set] of strings. *)
Variable iteration_order : gset string → list string.
Hypothesis iteration_order_elements :
  ∀ X : gset string, iteration_order X ≡ₚ elements X.

(** *** [get_versions_from_code] *)

(** The loop [for item in EXCLUDE_DEPS: versions.pop(item)].  The table
    is the module's own: what the loop has removed stays removed, also
    when a later [pop] raises. *)
Fixpoint pop_excluded_code (items : list string) (versions : Table.t)
  : result unit * Table.t :=
  match items with
  | [] => (Ok (), versions)
  | item :: items' =>
      match Table.pop item versions with
      | Ok versions' => pop_excluded_code items' versions'
      | Raise e => (Raise e, versions)
      end
  end.

(** The dictionary comprehension over [versions.items()]. *)
Definition normalized_code (install_map : gmap string string)
    (versions : Table.t) : gmap string string :=
  fold_left
    (λ (d : gmap string string) (kv : string * string),
       if decide (kv.1 ≠ "pytest")
       then <[casefold (default kv.1 (install_map !! kv.1)) := kv.2]> d
       else d)
    versions ∅.

(** The result, and [_optional.VERSIONS] as the call leaves it. *)
Definition get_versions_from_code (INSTALL_MAPPING : gmap string string)
    (VERSIONS : Table.t) : result (gmap string string) * Table.t :=
  let install_map := INSTALL_MAPPING in
  let versions := VERSIONS in
  match pop_excluded_code (iteration_order EXCLUDE_DEPS) versions with
  | (Ok _, versions) => (Ok (normalized_code install_map versions), versions)
  | (Raise e, versions) => (Raise e, versions)
  end.

(** *** [get_versions_from_ci] *)

(** The body of the loop over the lines. *)
Definition ci_line (st : ci_state) (line : string) : result ci_state :=
  if Str.contains "# required dependencies" line then
    Ok (CiState true (seen_optional st) (required_deps st) (optional_deps st))
  else if Str.contains "# optional dependencies" line then
    Ok (CiState (seen_required st) true (required_deps st) (optional_deps st))
  else if Str.contains "- pip:" line then
    Ok st
  else if seen_required st && bool_decide (Str.strip line ≠ "") then
    '(package, version) ←
      (if Str.contains "==" line
       then unpack2 (Str.split "==" (Str.strip line))
       else unpack2 (Str.split "=" (Str.strip line)));
    let package := Str.slice_from 2 package in
    if decide (package ∈ EXCLUDE_DEPS) then
      Ok st
    else if negb (seen_optional st) then
      Ok (CiState (seen_required st) (seen_optional st)
            (<[casefold package := version]> (required_deps st))
            (optional_deps st))
    else
      Ok (CiState (seen_required st) (seen_optional st)
            (required_deps st)
            (<[casefold package := version]> (optional_deps st)))
  else
    Ok st.

Fixpoint ci_loop (st : ci_state) (content : list string) : result ci_state :=
  match content with
  | [] => Ok st
  | line :: content' => st' ← ci_line st line; ci_loop st' content'
  end.

Definition get_versions_from_ci (content : list string)
  : result (gmap string string * gmap string string) :=
  st ← ci_loop ci_start content;
  Ok (required_deps st, optional_deps st).

(** *** [get_versions_from_setup] *)

(** The loop over the dependencies that are left. *)
Fixpoint setup_loop (install_map : gmap string string)
    (optional_dependencies : gmap string string) (dependencies : list string)
  : result (gmap string string) :=
  match dependencies with
  | [] => Ok optional_dependencies
  | dependency :: dependencies' =>
      '(package, version) ← unpack2 (Str.split ">=" (Str.strip dependency));
      setup_loop install_map
        (<[casefold (default package (install_map !! package)) := version]>
           optional_dependencies)
        dependencies'
  end.

(** The loop [for item in EXCLUDE_DEPS: optional_dependencies.pop(item)]. *)
Fixpoint pop_excluded (items : list string)
    (optional_dependencies : gmap string string)
  : result (gmap string string) :=
  match items with
  | [] => Ok optional_dependencies
  | item :: items' =>
      d ← pop item optional_dependencies; pop_excluded items' d
  end.

(** The comprehension that removes the test dependencies. *)
Definition remove_test_dependencies (dependencies : list string)
    (test_dependencies : gset string) : list string :=
  filter (λ package, package ∉ test_dependencies) dependencies.

(** [parser] is the [ConfigParser] after [parser.read(SETUP_PATH)]:
    section, then option, then the value that the lookup returns (with
    the defaults and behind the interpolation).  A lookup that ends
    with an interpolation error is outside this mapping. *)
Definition get_versions_from_setup (INSTALL_MAPPING : gmap string string)
    (parser : gmap string (gmap string string))
  : result (gmap string string) :=
  let install_map := INSTALL_MAPPING in
  section ← getitem parser "options.extras_require";
  setup_optional ← getitem section "all";
  let dependencies := Str.split Str.newline (Str.slice_from 1 setup_optional) in
  section ← getitem parser "options.extras_require";
  test ← getitem section "test";
  let test_dependencies : gset string :=
    list_to_set (Str.split Str.newline (Str.slice_from 1 test)) in
  let dependencies := remove_test_dependencies dependencies test_dependencies in
  optional_dependencies ← setup_loop install_map ∅ dependencies;
  pop_excluded (iteration_order EXCLUDE_DEPS) optional_dependencies.

(** *** [main] *)

(** [d.items()] as a set of pairs. *)
Definition items (d : gmap string string) : gset (string * string) :=
  map_to_set pair d.

Definition diff_of (ci_optional code_optional setup_optional : gmap string string)
  : gset (string * string) :=
  (items ci_optional ∪ items code_optional ∪ items setup_optional)
  ∖ (items ci_optional ∩ items code_optional ∩ items setup_optional).

Section Report.

Variables ci_path code_path setup_path : string.

Definition report_head : string :=
  "The follow minimum version differences were found between  "
  +:+ ci_path +:+ ", " +:+ code_path +:+ " AND " +:+ setup_path +:+ ". "
  +:+ "Please ensure these are aligned: " +:+ Str.newline +:+ Str.newline.

Definition report_entry
    (ci_optional code_optional setup_optional : gmap string string)
    (package : string) : string :=
  package +:+ Str.newline
  +:+ ci_path +:+ ": "
  +:+ default "Not specified" (ci_optional !! package) +:+ Str.newline
  +:+ code_path +:+ ": "
  +:+ default "Not specified" (code_optional !! package) +:+ Str.newline
  +:+ setup_path +:+ ": "
  +:+ default "Not specified" (setup_optional !! package)
  +:+ Str.newline +:+ Str.newline.

(** Lines 113 to 134 of the script: the comparison, the report and
    the exit. *)
Definition compare_and_exit
    (ci_optional code_optional setup_optional : gmap string string) : exit :=
  let diff := diff_of ci_optional code_optional setup_optional in
  if decide (diff ≠ ∅) then
    let packages : gset string := set_map fst diff in
    Exit
      (report_head
       :: map (report_entry ci_optional code_optional setup_optional)
            (iteration_order packages))
      1
  else Exit [] 0.

(** [content] is [f.readlines()] of the file at [CI_PATH]. *)
Definition main (content : list string)
    (INSTALL_MAPPING : gmap string string) (VERSIONS : Table.t)
    (parser : gmap string (gmap string string)) : result exit :=
  '(_, ci_optional) ← get_versions_from_ci content;
  code_optional ← (get_versions_from_code INSTALL_MAPPING VERSIONS).1;
  setup_optional ← get_versions_from_setup INSTALL_MAPPING parser;
  Ok (compare_and_exit ci_optional code_optional setup_optional).

End Report.

End Script.

(** ** The words of the specification *)

(** The delimiter at which a line of the CI file is split. *)
Definition delimiter (line : string) : string :=
  if Str.contains "==" line then "==" else "=".

(** The line is neither a marker nor blank. *)
Definition plain (line : string) : Prop :=
  Str.contains "# required dependencies" line = false
  ∧ Str.contains "# optional dependencies" line = false
  ∧ Str.contains "- pip:" line = false
  ∧ Str.strip line ≠ "".

(** The state of the CI reader without its required mapping. *)
Definition drop_required (st : ci_state) : ci_state :=
  CiState (seen_required st) (seen_optional st) ∅ (optional_deps st).

(** No character of [s] is white space. *)
Fixpoint spaceless (s : string) : bool :=
  match s with
  | "" => true
  | String c s' => negb (Str.isspace c) && spaceless s'
  end.

(** The CI reader as the specification describes it: the two marker
    comments set the mode, and in the required and in the optional mode a
    line that is not blank and not a pip marker is a declaration
    [- name==version] or [- name=version]. *)
Module CiSpec.

Inductive mode : Type := Outside | Required | Optional.

Definition is_required_marker (line : string) : bool :=
  Str.contains "# required dependencies" line.

Definition is_optional_marker (line : string) : bool :=
  Str.contains "# optional dependencies" line.

Definition is_pip_marker (line : string) : bool :=
  Str.contains "- pip:" line.

Definition is_blank (line : string) : bool :=
  bool_decide (Str.strip line = "").

(** The name, without the list marker before it, and the version. *)
Definition declaration (line : string) : result (string * string) :=
  let text := Str.strip line in
  '(item, version) ←
    unpack2 (Str.split (if Str.contains "==" text then "==" else "=") text);
  Ok (Str.slice_from 2 item, version).

Section Read.

Variable casefold : string → string.

Fixpoint read (m : mode) (required optional : gmap string string)
    (content : list string)
  : result (gmap string string * gmap string string) :=
  match content with
  | [] => Ok (required, optional)
  | line :: content' =>
      if is_required_marker line then read Required required optional content'
      else if is_optional_marker line then read Optional required optional content'
      else if is_pip_marker line || is_blank line then
        read m required optional content'
      else
        match m with
        | Outside => read m required optional content'
        | Required =>
            '(name, version) ← declaration line;
            if decide (name ∈ EXCLUDE_DEPS)
            then read m required optional content'
            else read m (<[casefold name := version]> required) optional content'
        | Optional =>
            '(name, version) ← declaration line;
            if decide (name ∈ EXCLUDE_DEPS)
            then read m required optional content'
            else read m required (<[casefold name := version]> optional) content'
        end
  end.

Definition get_versions (content : list string)
  : result (gmap string string * gmap string string) :=
  read Outside ∅ ∅ content.

End Read.

(** [seen_required] and [seen_optional] of the code in each mode. *)
Definition flags (m : mode) : bool * bool :=
  match m with
  | Outside => (false, false)
  | Required => (true, false)
  | Optional => (true, true)
  end.

(** The markers come in the order of the file the tool is written for:
    no optional marker before the first required marker, and no
    required marker behind an optional marker. *)
Fixpoint markers_in_order (m : mode) (content : list string) : bool :=
  match content with
  | [] => true
  | line :: content' =>
      if is_required_marker line then
        match m with
        | Optional => false
        | _ => markers_in_order Required content'
        end
      else if is_optional_marker line then
        match m with
        | Outside => false
        | _ => markers_in_order Optional content'
        end
      else markers_in_order m content'
  end.

End CiSpec.

(** ** A [casefold] for the examples: it lowers the letters A to Z *)

Definition lower (c : ascii) : ascii :=
  let n := nat_of_ascii c in
  if ((65 <=? n) && (n <=? 90))%nat then ascii_of_nat (n + 32) else c.

Fixpoint ascii_casefold (s : string) : string :=
  match s with
  | "" => ""
  | String c s' => String (lower c) (ascii_casefold s')
  end.

Definition nl (s : string) : string := s +:+ Str.newline.

(** A manifest whose [all] list has a test dependency and the excluded
    package, and one whose [all] list lacks the excluded package. *)
Definition sample_parser : gmap string (gmap string string) :=
  {[ "options.extras_require" :=
       {[ "all" := Str.newline +:+ nl "numpy>=1.20" +:+ nl "pytest>=6.0"
                   +:+ "tzdata>=2022a";
          "test" := Str.newline +:+ nl "pytest>=6.0" +:+ "hypothesis>=5.5.3" ]} ]}.

Definition parser_without_tzdata : gmap string (gmap string string) :=
  {[ "options.extras_require" :=
       {[ "all" := Str.newline +:+ "numpy>=1.20";
          "test" := Str.newline +:+ "pytest>=6.0" ]} ]}.

Definition sample_versions : list (string * string) :=
  [("numpy", "1.20"); ("pytest", "6.0"); ("tzdata", "2022a")].

(** A CI file in the layout of [ci/deps]. *)
Definition sample_ci : list string :=
  [ nl "name: pandas-dev"; nl "dependencies:";
    nl "  # required dependencies"; nl "  - python=3.8"; nl "";
    nl "  # optional dependencies"; nl "  - NumPy=1.20"; nl "  - pip:";
    nl "  - tzdata=2022a" ].

(** The same file with another required section, and with a required
    section that has a line without a delimiter. *)
Definition sample_ci_other_required : list string :=
  [ nl "name: pandas-dev"; nl "dependencies:";
    nl "  # required dependencies"; nl "  - python=3.9"; nl "  - pytz=2020.1";
    nl "  # optional dependencies"; nl "  - NumPy=1.20"; nl "  - pip:";
    nl "  - tzdata=2022a" ].

Definition sample_ci_malformed_required : list string :=
  [ nl "name: pandas-dev"; nl "dependencies:";
    nl "  # required dependencies"; nl "  - python"; nl "";
    nl "  # optional dependencies"; nl "  - NumPy=1.20"; nl "  - pip:";
    nl "  - tzdata=2022a" ].

(** A CI file with the optional marker and without the required marker. *)
Definition ci_optional_marker_only : list string :=
  [ nl "  # optional dependencies"; nl "  - numpy=1.20" ].

(** A dependency with an import name and a distribution name: the CI
    file has the import name. *)
Definition alias_map : gmap string string := {[ "bs4" := "beautifulsoup4" ]}.

Definition alias_ci : list string :=
  [ nl "  # required dependencies"; nl "  # optional dependencies";
    nl "  - bs4=4.9.3" ].

Definition alias_versions : list (string * string) :=
  [("bs4", "4.9.3"); ("tzdata", "2022a")].

Definition alias_parser : gmap string (gmap string string) :=
  {[ "options.extras_require" :=
       {[ "all" := Str.newline +:+ nl "beautifulsoup4>=4.9.3" +:+ "tzdata>=2022a";
          "test" := Str.newline +:+ "pytest>=6.0" ]} ]}.

(** The excluded package in capitals in the CI file. *)
Definition capitals_ci : list string :=
  [ nl "  # required dependencies"; nl "  # optional dependencies";
    nl "  - TZDATA=2022a" ].

Definition capitals_versions : list (string * string) := [("tzdata", "2022a")].

Definition capitals_parser : gmap string (gmap string string) :=
  {[ "options.extras_require" :=
       {[ "all" := Str.newline +:+ "tzdata>=2022a";
          "test" := Str.newline +:+ "pytest>=6.0" ]} ]}.

(** ** Notions for the further properties *)

(** Every character of [s] is white space. *)
Fixpoint whitespace (s : string) : bool :=
  match s with
  | "" => true
  | String c s' => Str.isspace c && whitespace s'
  end.

(** The character [x] is not in [s]. *)
Fixpoint lacks (x : ascii) (s : string) : bool :=
  match s with
  | "" => true
  | String c s' => negb (bool_decide (c = x)) && lacks x s'
  end.

(** [sep.join(parts)]. *)
Fixpoint join (sep : string) (parts : list string) : string :=
  match parts with
  | [] => ""
  | [part] => part
  | part :: parts' => part +:+ sep +:+ join sep parts'
  end.

(** The line sets [seen_optional]: it has the optional marker and not
    the required marker. *)
Definition sets_seen_optional (line : string) : bool :=
  negb (Str.contains "# required dependencies" line)
  && Str.contains "# optional dependencies" line.

(** [install_map.get(package, package).casefold()]. *)
Definition normalized (casefold : string → string)
    (install_map : gmap string string) (package : string) : string :=
  casefold (default package (install_map !! package)).

(** * Properties *)

(** ** Results *)

Lemma bind_Ok {A B : Type} (a : A) (k : A → result B) : (x ← Ok a; k x) = k a.
Proof. reflexivity. Qed.

Lemma bind_Raise {A B : Type} (e : exception) (k : A → result B) :
  (x ← Raise e; k x) = Raise e.
Proof. reflexivity. Qed.

Lemma bind_eq_Ok {A B : Type} (r : result A) (k : A → result B) (b : B) :
  (x ← r; k x) = Ok b ↔ ∃ a, r = Ok a ∧ k a = Ok b.
Proof.
  destruct r as [a|e]; simpl.
  - split; [by exists a | by intros (a' & [= <-] & Hk)].
  - split; [done | by intros (a' & [=] & _)].
Qed.

Lemma getitem_Some {V : Type} (d : gmap string V) (key : string) (v : V) :
  d !! key = Some v → getitem d key = Ok v.
Proof. intros H. unfold getitem. by rewrite H. Qed.

Lemma getitem_eq_Ok {V : Type} (d : gmap string V) (key : string) (v : V) :
  getitem d key = Ok v ↔ d !! key = Some v.
Proof. unfold getitem. destruct (d !! key); naive_solver. Qed.

Lemma pop_eq_Ok (key : string) (d d' : gmap string string) :
  pop key d = Ok d' ↔ is_Some (d !! key) ∧ d' = delete key d.
Proof.
  unfold pop. destruct (d !! key) as [v|] eqn:E.
  - split; [intros [= <-]; eauto | by intros [_ ->]].
  - split; [done | by intros [[? [=]] _]].
Qed.

Lemma pop_absent (key : string) (d : gmap string string) :
  d !! key = None → pop key d = Raise (KeyError key).
Proof. intros H. unfold pop. by rewrite H. Qed.

(** ** Strings *)

Lemma app_String (c : ascii) (s t : string) :
  String c s +:+ t = String c (s +:+ t).
Proof. reflexivity. Qed.

Lemma app_empty_l (t : string) : "" +:+ t = t.
Proof. reflexivity. Qed.

Lemma app_length (s t : string) :
  String.length (s +:+ t) = String.length s + String.length t.
Proof. induction s as [|c s IH]; [done|]. rewrite app_String. simpl. lia. Qed.

Lemma startswith_spec (p s : string) :
  Str.startswith p s = true ↔ ∃ t, s = p +:+ t.
Proof.
  revert s. induction p as [|a p IH]; intros s; simpl.
  - split; [intros _; by exists s | done].
  - destruct s as [|b s].
    + split; [done | intros [t Ht]; discriminate].
    + destruct (decide (a = b)) as [->|Hne].
      * rewrite IH. split; intros [t Ht]; exists t.
        -- by rewrite app_String, <- Ht.
        -- rewrite app_String in Ht. by injection Ht.
      * split; [done | intros [t Ht]]. rewrite app_String in Ht.
        injection Ht as Hb _. congruence.
Qed.

Lemma endswith_spec (p s : string) :
  Str.endswith p s = true ↔ ∃ t, s = t +:+ p.
Proof.
  induction s as [|c s IH]; simpl.
  - rewrite orb_false_r, bool_decide_eq_true. split.
    + intros <-. by exists "".
    + intros [[|d t] Ht]; [done | discriminate].
  - rewrite orb_true_iff, bool_decide_eq_true, IH. split.
    + intros [<- | [t ->]]; [by exists "" | by exists (String c t)].
    + intros [[|d t] Ht]; [by left | right].
      rewrite app_String in Ht. injection Ht as _ ->. by exists t.
Qed.

Lemma app_eq_app_le (p t u q : string) :
  p +:+ t = u +:+ q → String.length p ≤ String.length u →
  ∃ m, u = p +:+ m ∧ t = m +:+ q.
Proof.
  revert u. induction p as [|a p IH]; intros u Heq Hlen.
  - exists u. by rewrite !app_empty_l in *.
  - destruct u as [|b u]; [simpl in Hlen; lia|].
    rewrite !app_String in Heq. injection Heq as -> Heq.
    destruct (IH u Heq) as (m & -> & ->); [simpl in Hlen; lia|].
    by exists m.
Qed.

(** The names that [actions-*-minimum_versions.yaml] matches. *)
Lemma matches_ci_pattern_spec (name : string) :
  matches_ci_pattern name = true ↔
  ∃ middle, name = "actions-" +:+ middle +:+ "-minimum_versions.yaml".
Proof.
  unfold matches_ci_pattern.
  rewrite !andb_true_iff, Nat.leb_le, startswith_spec, endswith_spec. split.
  - intros [[Hlen [t Ht]] [u Hu]]. subst name.
    destruct (app_eq_app_le "actions-" t u "-minimum_versions.yaml" Hu)
      as (m & -> & ->).
    + rewrite Hu, app_length in Hlen. simpl in Hlen. simpl. lia.
    + by exists m.
  - intros [middle ->]. split_and!.
    + rewrite !app_length. simpl. lia.
    + by eexists.
    + exists ("actions-" +:+ middle). clear. by induction middle.
Qed.

(** ** The readers *)

Section Readers.

Variable casefold : string → string.
Variable iteration_order : gset string → list string.
Hypothesis iteration_order_elements :
  ∀ X : gset string, iteration_order X ≡ₚ elements X.

Lemma iteration_order_EXCLUDE_DEPS : iteration_order EXCLUDE_DEPS = ["tzdata"].
Proof.
  apply Permutation_singleton_r. rewrite iteration_order_elements.
  unfold EXCLUDE_DEPS. by rewrite elements_singleton.
Qed.

(** *** The table of the code *)

Lemma Table_pop_absent (key : string) (d : Table.t) :
  key ∉ Table.keys d → Table.pop key d = Raise (KeyError key).
Proof. intros Hk. unfold Table.pop. by rewrite decide_False. Qed.

Lemma Table_pop_present (key : string) (d : Table.t) :
  key ∈ Table.keys d → Table.pop key d = Ok (filter (λ kv, kv.1 ≠ key) d).
Proof. intros Hk. unfold Table.pop. by rewrite decide_True. Qed.

Lemma Table_keys_filter_ne (key : string) (d : Table.t) :
  key ∉ Table.keys (filter (λ kv, kv.1 ≠ key) d).
Proof.
  unfold Table.keys. rewrite list_elem_of_fmap. intros ([k v] & -> & Hin).
  apply list_elem_of_filter in Hin as [Hne _]. by apply Hne.
Qed.

Lemma Table_filter_absent (key : string) (d : Table.t) :
  key ∉ Table.keys d → filter (λ kv, kv.1 ≠ key) d = d.
Proof.
  unfold Table.keys. induction d as [|[k v] d IH]; [done|]. intros Hk.
  rewrite fmap_cons, not_elem_of_cons in Hk. destruct Hk as [Hne Hk].
  rewrite filter_cons_True by (intros Heq; by apply Hne). by rewrite IH.
Qed.

Lemma get_versions_from_code_absent im (V : Table.t) :
  "tzdata" ∉ Table.keys V →
  get_versions_from_code casefold iteration_order im V
  = (Raise (KeyError "tzdata"), V).
Proof.
  intros Hk. unfold get_versions_from_code.
  rewrite iteration_order_EXCLUDE_DEPS. simpl. by rewrite Table_pop_absent.
Qed.

Lemma get_versions_from_code_present im (V : Table.t) :
  "tzdata" ∈ Table.keys V →
  get_versions_from_code casefold iteration_order im V
  = (Ok (normalized_code casefold im (filter (λ kv, kv.1 ≠ "tzdata") V)),
     filter (λ kv, kv.1 ≠ "tzdata") V).
Proof.
  intros Hk. unfold get_versions_from_code.
  rewrite iteration_order_EXCLUDE_DEPS. simpl. by rewrite Table_pop_present.
Qed.

(** *** The manifest *)

Lemma pop_excluded_tzdata (d : gmap string string) :
  pop_excluded (iteration_order EXCLUDE_DEPS) d = pop "tzdata" d.
Proof.
  rewrite iteration_order_EXCLUDE_DEPS. simpl. by destruct (pop "tzdata" d).
Qed.

(** Where an entry of the mapping that [setup_loop] returns comes from. *)
Lemma setup_loop_lookup im (acc d : gmap string string)
    (dependencies : list string) (key v : string) :
  setup_loop casefold im acc dependencies = Ok d →
  d !! key = Some v →
  acc !! key = Some v
  ∨ ∃ dependency package,
      dependency ∈ dependencies
      ∧ unpack2 (Str.split ">=" (Str.strip dependency)) = Ok (package, v)
      ∧ key = casefold (default package (im !! package)).
Proof.
  revert acc. induction dependencies as [|dep deps IH]; intros acc; simpl.
  - intros [= ->] Hd. by left.
  - intros Hloop Hd. apply bind_eq_Ok in Hloop as ([package version] & Hsplit & Hloop).
    destruct (IH _ Hloop Hd) as [Hacc | (dep' & package' & Hin & Hsplit' & Hkey)].
    + rewrite lookup_insert in Hacc. case_decide as Hk.
      * injection Hacc as ->. right. exists dep, package.
        split_and!; [apply list_elem_of_here | done | done].
      * by left.
    + right. exists dep', package'. split_and!; [by apply list_elem_of_further | done | done].
Qed.

(** An entry that is split leaves its normalized name in the mapping. *)
Lemma setup_loop_dom im (acc d : gmap string string)
    (dependencies : list string) (key : string) :
  setup_loop casefold im acc dependencies = Ok d →
  is_Some (acc !! key)
  ∨ (∃ entry package version,
       entry ∈ dependencies
       ∧ unpack2 (Str.split ">=" (Str.strip entry)) = Ok (package, version)
       ∧ key = normalized casefold im package) →
  is_Some (d !! key).
Proof.
  revert acc. induction dependencies as [|dep deps IH]; intros acc; simpl.
  - intros [= <-] [Hacc | (entry & _ & _ & Hin & _)]; [done|].
    by apply elem_of_nil in Hin.
  - intros Hloop Hkey.
    apply bind_eq_Ok in Hloop as ([package version] & Hparts & Hloop).
    apply (IH _ Hloop).
    destruct Hkey as [Hacc | (entry & p & v & Hin & Hsplit & ->)].
    + left. rewrite lookup_insert. by case_decide.
    + apply elem_of_cons in Hin as [-> | Hin].
      * left. rewrite Hsplit in Hparts. injection Hparts as -> ->.
        unfold normalized. by rewrite lookup_insert_eq.
      * right. by exists entry, p, v.
Qed.

Lemma get_versions_from_setup_eq im (parser : gmap string (gmap string string))
    (section : gmap string string) (setup_optional test : string) :
  parser !! "options.extras_require" = Some section →
  section !! "all" = Some setup_optional →
  section !! "test" = Some test →
  get_versions_from_setup casefold iteration_order im parser
  = (optional_dependencies ←
       setup_loop casefold im ∅
         (remove_test_dependencies
            (Str.split Str.newline (Str.slice_from 1 setup_optional))
            (list_to_set (Str.split Str.newline (Str.slice_from 1 test))));
     pop "tzdata" optional_dependencies).
Proof.
  intros Hsec Hall Htest. unfold get_versions_from_setup. cbv zeta.
  rewrite (getitem_Some _ _ _ Hsec), bind_Ok.
  rewrite (getitem_Some _ _ _ Hall), !bind_Ok.
  rewrite (getitem_Some _ _ _ Htest), bind_Ok.
  destruct (setup_loop _ _ _ _) as [d|e]; [|done].
  rewrite !bind_Ok. apply pop_excluded_tzdata.
Qed.


(** The mapping that the manifest reader returns has no excluded
    package: the reader removes it after the names are normalized. *)
Lemma get_versions_from_setup_excluded_absent
    im (parser : gmap string (gmap string string)) (d : gmap string string)
    (item : string) :
  get_versions_from_setup casefold iteration_order im parser = Ok d →
  item ∈ EXCLUDE_DEPS → d !! item = None.
Proof.
  unfold get_versions_from_setup. cbv zeta. intros Hret Hitem.
  apply elem_of_singleton in Hitem as ->.
  apply bind_eq_Ok in Hret as (section & _ & Hret).
  apply bind_eq_Ok in Hret as (setup_optional & _ & Hret).
  apply bind_eq_Ok in Hret as (section' & _ & Hret).
  apply bind_eq_Ok in Hret as (test & _ & Hret).
  apply bind_eq_Ok in Hret as (m & _ & Hret).
  rewrite pop_excluded_tzdata in Hret.
  apply pop_eq_Ok in Hret as [_ ->]. apply lookup_delete_eq.
Qed.


(** C9: the reader removes the excluded package from its result with a
    [pop] that has no default.  When the entries that are left give a
    mapping without the excluded package, the reader raises [KeyError];
    when the reader returns, that mapping had every excluded package. *)
Theorem get_versions_from_setup_requires_excluded
    im (parser : gmap string (gmap string string))
    (section : gmap string string) (setup_optional test : string) :
  parser !! "options.extras_require" = Some section →
  section !! "all" = Some setup_optional →
  section !! "test" = Some test →
  let normalized :=
    setup_loop casefold im ∅
      (remove_test_dependencies
         (Str.split Str.newline (Str.slice_from 1 setup_optional))
         (list_to_set (Str.split Str.newline (Str.slice_from 1 test)))) in
  (∀ m item,
     normalized = Ok m → item ∈ EXCLUDE_DEPS → m !! item = None →
     get_versions_from_setup casefold iteration_order im parser
     = Raise (KeyError item))
  ∧ (∀ d,
       get_versions_from_setup casefold iteration_order im parser = Ok d →
       ∃ m, normalized = Ok m
            ∧ (∀ item, item ∈ EXCLUDE_DEPS → is_Some (m !! item))
            ∧ d = delete "tzdata" m).
Proof.
  intros Hsec Hall Htest normalized.
  rewrite (get_versions_from_setup_eq _ _ _ _ _ Hsec Hall Htest).
  fold normalized. split.
  - intros m item -> Hitem Hnone. apply elem_of_singleton in Hitem as ->.
    rewrite bind_Ok. by apply pop_absent.
  - intros d Hret. apply bind_eq_Ok in Hret as (m & -> & Hpop).
    apply pop_eq_Ok in Hpop as [Hsome ->]. exists m. split_and!; [done | | done].
    intros item Hitem. by apply elem_of_singleton in Hitem as ->.
Qed.

(** C8: the excluded package is removed from the module's table itself.
    After a call the table is the one before it without the excluded
    package; a call that returns has changed the table; and a second
    call, on the table the first one left, raises [KeyError]. *)
Theorem get_versions_from_code_pops_in_place im (V : Table.t) :
  let first := get_versions_from_code casefold iteration_order im V in
  first.2 = filter (λ kv, kv.1 ≠ "tzdata") V
  ∧ (∀ d, first.1 = Ok d → "tzdata" ∈ Table.keys V ∧ first.2 ≠ V)
  ∧ (get_versions_from_code casefold iteration_order im first.2).1
    = Raise (KeyError "tzdata").
Proof.
  intros first. subst first.
  destruct (decide ("tzdata" ∈ Table.keys V)) as [Hin | Hout].
  - rewrite (get_versions_from_code_present _ _ Hin). simpl. split_and!.
    + done.
    + intros d _. split; [done|]. intros Heq.
      apply (Table_keys_filter_ne "tzdata" V). by rewrite Heq.
    + rewrite get_versions_from_code_absent; [done|].
      apply Table_keys_filter_ne.
  - rewrite (get_versions_from_code_absent _ _ Hout). simpl. split_and!.
    + by rewrite Table_filter_absent.
    + done.
    + by rewrite get_versions_from_code_absent.
Qed.

End Readers.

(** ** The path of the CI file *)

(** C3, as the code has it: the path is the first name that the pattern
    matches.  The resolution fails, with [StopIteration], exactly when no
    name matches; when several names match there is no failure. *)
Theorem CI_PATH_first_match (directory : list string) :
  (CI_PATH directory = Raise StopIteration
   ↔ ∀ name, name ∈ directory → matches_ci_pattern name = false)
  ∧ (∀ before name after,
       directory = before ++ name :: after →
       (∀ other, other ∈ before → matches_ci_pattern other = false) →
       matches_ci_pattern name = true →
       CI_PATH directory = Ok name)
  ∧ (∀ name,
       name ∈ glob_ci_deps directory
       ↔ name ∈ directory
         ∧ ∃ middle, name = "actions-" +:+ middle +:+ "-minimum_versions.yaml").
Proof.
  unfold CI_PATH, glob_ci_deps. split_and!.
  - induction directory as [|name directory IH]; simpl.
    + split; [intros _ name Hin; by apply elem_of_nil in Hin | done].
    + destruct (matches_ci_pattern name) eqn:E.
      * rewrite filter_cons_True by (by rewrite E). simpl. split; [done|].
        intros Hall. specialize (Hall name (list_elem_of_here _ _)). congruence.
      * rewrite filter_cons_False by (rewrite E; simpl; tauto). rewrite IH. split.
        -- intros Hall other [-> | Hin]%elem_of_cons; auto.
        -- intros Hall other Hin. by apply Hall, list_elem_of_further.
  - intros before name after -> Hbefore Hname.
    induction before as [|other before IH]; simpl.
    + rewrite filter_cons_True by (by rewrite Hname). done.
    + rewrite filter_cons_False.
      * apply IH. intros o Ho. by apply Hbefore, list_elem_of_further.
      * rewrite (Hbefore other (list_elem_of_here _ _)). simpl. tauto.
  - intros name. rewrite list_elem_of_filter, <- matches_ci_pattern_spec.
    rewrite Is_true_true. tauto.
Qed.

(** C3, as the spec has it, fails: with two names that match, the
    resolution returns the first of them. *)
Lemma CI_PATH_two_matches :
  glob_ci_deps ["actions-38-minimum_versions.yaml"; "environment.yml";
                "actions-39-minimum_versions.yaml"]
  = ["actions-38-minimum_versions.yaml"; "actions-39-minimum_versions.yaml"]
  ∧ CI_PATH ["actions-38-minimum_versions.yaml"; "environment.yml";
             "actions-39-minimum_versions.yaml"]
    = Ok "actions-38-minimum_versions.yaml".
Proof. split; reflexivity. Qed.

(** ** The comparator *)

Section Comparator.

Variable iteration_order : gset string → list string.
Hypothesis iteration_order_elements :
  ∀ X : gset string, iteration_order X ≡ₚ elements X.

Lemma elem_of_items (d : gmap string string) (k v : string) :
  (k, v) ∈ items d ↔ d !! k = Some v.
Proof. unfold items. apply elem_of_map_to_set_pair. Qed.

Lemma elem_of_diff_of (ci code setup : gmap string string) (k v : string) :
  (k, v) ∈ diff_of ci code setup
  ↔ (ci !! k = Some v ∨ code !! k = Some v ∨ setup !! k = Some v)
    ∧ ¬ (ci !! k = Some v ∧ code !! k = Some v ∧ setup !! k = Some v).
Proof.
  unfold diff_of.
  rewrite elem_of_difference, !elem_of_union, !elem_of_intersection.
  rewrite !elem_of_items. tauto.
Qed.

Lemma elem_of_iteration_order (X : gset string) (x : string) :
  x ∈ iteration_order X ↔ x ∈ X.
Proof. by rewrite iteration_order_elements, elem_of_elements. Qed.

Lemma NoDup_iteration_order (X : gset string) : NoDup (iteration_order X).
Proof. rewrite iteration_order_elements. apply NoDup_elements. Qed.

(** C1: the difference holds the pairs that some mapping has and not
    all three have.  When it is empty nothing is written and the status
    is 0.  When it is not, the head of the report is written, then one
    entry for each package of the difference, each package once, and
    the status is 1. *)
Theorem compare_and_exit_report (ci_path code_path setup_path : string)
    (ci_optional code_optional setup_optional : gmap string string) :
  let diff := diff_of ci_optional code_optional setup_optional in
  let out :=
    compare_and_exit iteration_order ci_path code_path setup_path
      ci_optional code_optional setup_optional in
  (∀ k v,
     (k, v) ∈ diff
     ↔ (ci_optional !! k = Some v ∨ code_optional !! k = Some v
        ∨ setup_optional !! k = Some v)
       ∧ ¬ (ci_optional !! k = Some v ∧ code_optional !! k = Some v
            ∧ setup_optional !! k = Some v))
  ∧ (diff = ∅ → out = Exit [] 0)
  ∧ (diff ≠ ∅ →
     ∃ packages : list string,
       NoDup packages
       ∧ (∀ package, package ∈ packages ↔ ∃ v, (package, v) ∈ diff)
       ∧ written out
         = report_head ci_path code_path setup_path
           :: map (λ package,
                     package +:+ Str.newline
                     +:+ ci_path +:+ ": "
                     +:+ default "Not specified" (ci_optional !! package)
                     +:+ Str.newline
                     +:+ code_path +:+ ": "
                     +:+ default "Not specified" (code_optional !! package)
                     +:+ Str.newline
                     +:+ setup_path +:+ ": "
                     +:+ default "Not specified" (setup_optional !! package)
                     +:+ Str.newline +:+ Str.newline)
                packages
       ∧ status out = 1).
Proof.
  intros diff out. split_and!.
  - intros k v. apply elem_of_diff_of.
  - intros Hempty. subst out. unfold compare_and_exit. fold diff.
    by rewrite decide_False by (by intros H; apply H).
  - intros Hne. subst out. unfold compare_and_exit. fold diff.
    rewrite decide_True by done.
    exists (iteration_order (set_map fst diff)). split_and!.
    + apply NoDup_iteration_order.
    + intros package. rewrite elem_of_iteration_order, elem_of_map. split.
      * intros ([k v] & -> & Hin). by exists v.
      * intros [v Hin]. by exists (package, v).
    + done.
    + done.
Qed.

End Comparator.

(** ** Splitting, counting and stripping *)

Lemma split_from_length (sep : string) (skip : nat) (s : string) :
  length (Str.split_from sep skip s) = S (Str.count_from sep skip s).
Proof.
  revert skip. induction s as [|c s IH]; intros skip; [done|]. simpl.
  destruct skip as [|k]; [|apply IH].
  destruct (Str.startswith sep (String c s)).
  - simpl. by rewrite IH.
  - specialize (IH 0). destruct (Str.split_from sep 0 s); [done|]. exact IH.
Qed.

Lemma split_length (sep s : string) :
  length (Str.split sep s) = S (Str.count sep s).
Proof. apply split_from_length. Qed.

Lemma unpack2_Ok (parts : list string) (a b : string) :
  unpack2 parts = Ok (a, b) ↔ parts = [a; b].
Proof.
  destruct parts as [|x [|y [|z parts]]]; simpl; split;
    try done; by intros [= -> ->].
Qed.

Lemma unpack2_Raise (parts : list string) :
  length parts ≠ 2 → unpack2 parts = Raise ValueError.
Proof. by destruct parts as [|x [|y [|z parts]]]. Qed.

Lemma unpack2_exception (parts : list string) (e : exception) :
  unpack2 parts = Raise e → e = ValueError.
Proof. destruct parts as [|x [|y [|z parts]]]; simpl; congruence. Qed.

Lemma rstrip_cons_nonspace (c : ascii) (s : string) :
  Str.isspace c = false → Str.rstrip (String c s) = String c (Str.rstrip s).
Proof. intros H. simpl. rewrite H. by destruct (Str.rstrip s). Qed.

Lemma rstrip_cons_cases (c : ascii) (s : string) :
  (Str.rstrip (String c s) = "" ∧ Str.isspace c = true ∧ Str.rstrip s = "")
  ∨ Str.rstrip (String c s) = String c (Str.rstrip s).
Proof.
  simpl. destruct (Str.rstrip s); [|by right].
  destruct (Str.isspace c); [by left | by right].
Qed.

Lemma startswith_space (a c : ascii) (p s : string) :
  Str.isspace a = false → Str.isspace c = true →
  Str.startswith (String a p) (String c s) = false.
Proof. intros Ha Hc. simpl. case_decide; [congruence | done]. Qed.

Lemma startswith_rstrip (sep s : string) :
  spaceless sep = true →
  Str.startswith sep (Str.rstrip s) = Str.startswith sep s.
Proof.
  revert s. induction sep as [|a p IH]; intros s Hsep.
  - by destruct s, (Str.rstrip _).
  - simpl in Hsep. apply andb_true_iff in Hsep as [Ha Hp].
    apply negb_true_iff in Ha. destruct s as [|b s]; [done|].
    destruct (decide (a = b)) as [<-|Hne].
    + rewrite rstrip_cons_nonspace by done. simpl.
      case_decide; [by apply IH | done].
    + destruct (rstrip_cons_cases b s) as [(-> & _) | ->]; simpl;
        by case_decide.
Qed.

Section Spaceless.

(** A separator without white space, such as [=], [==] and [>=]. *)
Variables (a : ascii) (p : string).
Hypothesis sep_spaceless : spaceless (String a p) = true.

Local Abbreviation sep := (String a p).

Lemma sep_head : Str.isspace a = false.
Proof.
  simpl in sep_spaceless. apply andb_true_iff in sep_spaceless as [Ha _].
  by apply negb_true_iff in Ha.
Qed.

Lemma count_from_blank (skip : nat) (s : string) :
  Str.rstrip s = "" → Str.count_from sep skip s = 0.
Proof.
  revert skip. induction s as [|c s IH]; intros skip Hs; [done|].
  destruct (rstrip_cons_cases c s) as [(_ & Hc & Hs') | Hcons];
    [|by rewrite Hcons in Hs].
  simpl. destruct skip as [|k]; [|by apply IH].
  case_decide; [subst c; by rewrite sep_head in Hc | by apply IH].
Qed.

Lemma count_from_rstrip (skip : nat) (s : string) :
  Str.count_from sep skip (Str.rstrip s) = Str.count_from sep skip s.
Proof.
  revert skip. induction s as [|c s IH]; intros skip; [done|].
  destruct (rstrip_cons_cases c s) as [(Hnil & Hc & Hs') | Hcons].
  - rewrite Hnil. symmetry. apply count_from_blank. exact Hnil.
  - pose proof (startswith_rstrip sep (String c s) sep_spaceless) as Hstart.
    rewrite Hcons in *. cbn [Str.count_from].
    destruct skip as [|k]; [|apply IH].
    rewrite Hstart. destruct (Str.startswith sep (String c s)); by rewrite IH.
Qed.

Lemma count_from_lstrip (s : string) :
  Str.count_from sep 0 (Str.lstrip s) = Str.count_from sep 0 s.
Proof.
  induction s as [|c s IH]; [done|]. cbn [Str.lstrip].
  destruct (Str.isspace c) eqn:Hc; [|done].
  rewrite IH. cbn [Str.count_from].
  by rewrite (startswith_space _ _ _ _ sep_head Hc).
Qed.

Lemma count_strip (s : string) : Str.count sep (Str.strip s) = Str.count sep s.
Proof.
  unfold Str.count, Str.strip. by rewrite count_from_rstrip, count_from_lstrip.
Qed.

Lemma contains_blank (s : string) :
  Str.rstrip s = "" → Str.contains sep s = false.
Proof.
  induction s as [|c s IH]; intros Hs; [done|].
  destruct (rstrip_cons_cases c s) as [(_ & Hc & Hs') | Hcons];
    [|by rewrite Hcons in Hs].
  cbn [Str.contains].
  by rewrite (startswith_space _ _ _ _ sep_head Hc), IH.
Qed.

Lemma contains_rstrip (s : string) :
  Str.contains sep (Str.rstrip s) = Str.contains sep s.
Proof.
  induction s as [|c s IH]; [done|].
  destruct (rstrip_cons_cases c s) as [(Hnil & Hc & Hs') | Hcons].
  - rewrite Hnil. symmetry. apply contains_blank. exact Hnil.
  - pose proof (startswith_rstrip sep (String c s) sep_spaceless) as Hstart.
    rewrite Hcons in *. cbn [Str.contains]. by rewrite Hstart, IH.
Qed.

Lemma contains_lstrip (s : string) :
  Str.contains sep (Str.lstrip s) = Str.contains sep s.
Proof.
  induction s as [|c s IH]; [done|]. cbn [Str.lstrip].
  destruct (Str.isspace c) eqn:Hc; [|done].
  rewrite IH. cbn [Str.contains].
  by rewrite (startswith_space _ _ _ _ sep_head Hc).
Qed.

Lemma contains_strip (s : string) :
  Str.contains sep (Str.strip s) = Str.contains sep s.
Proof. unfold Str.strip. by rewrite contains_rstrip, contains_lstrip. Qed.

End Spaceless.

(** ** The CI reader *)

Lemma delimiter_cases (line : string) :
  (Str.contains "==" line = true ∧ delimiter line = "==")
  ∨ (Str.contains "==" line = false ∧ delimiter line = "=").
Proof. unfold delimiter. destruct (Str.contains "==" line); auto. Qed.

Lemma delimiter_count_strip (line : string) :
  Str.count (delimiter line) (Str.strip line) = Str.count (delimiter line) line.
Proof.
  destruct (delimiter_cases line) as [[_ ->] | [_ ->]]; by apply count_strip.
Qed.

Section CiReader.

Variable casefold : string → string.

Lemma ci_loop_app (st : ci_state) (content1 content2 : list string) :
  ci_loop casefold st (content1 ++ content2)
  = (st' ← ci_loop casefold st content1; ci_loop casefold st' content2).
Proof.
  revert st. induction content1 as [|line content1 IH]; intros st; [done|].
  simpl. destruct (ci_line casefold st line) as [st'|e]; [|done].
  rewrite !bind_Ok. apply IH.
Qed.

Lemma ci_line_plain (st : ci_state) (line : string) :
  plain line → seen_required st = true →
  ci_line casefold st line
  = ('(package, version) ←
       unpack2 (Str.split (delimiter line) (Str.strip line));
     let package := Str.slice_from 2 package in
     if decide (package ∈ EXCLUDE_DEPS) then Ok st
     else if negb (seen_optional st) then
       Ok (CiState (seen_required st) (seen_optional st)
             (<[casefold package := version]> (required_deps st))
             (optional_deps st))
     else
       Ok (CiState (seen_required st) (seen_optional st)
             (required_deps st)
             (<[casefold package := version]> (optional_deps st)))).
Proof.
  intros (Hreq & Hopt & Hpip & Hblank) Hseen. unfold ci_line.
  rewrite Hreq, Hopt, Hpip, Hseen, bool_decide_eq_true_2 by done. simpl.
  unfold delimiter. by destruct (Str.contains "==" line).
Qed.

Lemma ci_line_exception (st : ci_state) (line : string) (e : exception) :
  ci_line casefold st line = Raise e → e = ValueError.
Proof.
  unfold ci_line.
  destruct (Str.contains "# required dependencies" line); [done|].
  destruct (Str.contains "# optional dependencies" line); [done|].
  destruct (Str.contains "- pip:" line); [done|].
  destruct (seen_required st && _); [|done].
  destruct (Str.contains "==" line).
  all: destruct (unpack2 _) as [[package version]|e'] eqn:E;
    [ rewrite bind_Ok; cbv zeta; case_decide; [done|];
      by destruct (negb _)
    | rewrite bind_Raise; intros [= <-]; by apply unpack2_exception in E ].
Qed.

Lemma ci_loop_exception (st : ci_state) (content : list string) (e : exception) :
  ci_loop casefold st content = Raise e → e = ValueError.
Proof.
  revert st. induction content as [|line content IH]; intros st; [done|].
  simpl. destruct (ci_line casefold st line) as [st'|e'] eqn:E.
  - rewrite bind_Ok. apply IH.
  - rewrite bind_Raise. intros [= <-]. by apply ci_line_exception in E.
Qed.

Lemma ci_line_seen (st st' : ci_state) (line : string) :
  ci_line casefold st line = Ok st' →
  seen_required st'
  = Str.contains "# required dependencies" line || seen_required st
  ∧ seen_optional st'
    = negb (Str.contains "# required dependencies" line)
      && Str.contains "# optional dependencies" line
      || seen_optional st.
Proof.
  unfold ci_line.
  destruct (Str.contains "# required dependencies" line); [by intros [= <-]|].
  destruct (Str.contains "# optional dependencies" line); [by intros [= <-]|].
  destruct (Str.contains "- pip:" line); [by intros [= <-]|].
  destruct (seen_required st && _); [|by intros [= <-]].
  destruct (Str.contains "==" line).
  all: destruct (unpack2 _) as [[package version]|e'];
    [ rewrite bind_Ok; cbv zeta; case_decide; [by intros [= <-]|];
      destruct (negb _); by intros [= <-]
    | by rewrite bind_Raise ].
Qed.

Lemma ci_loop_seen_required (st st' : ci_state) (content : list string) :
  ci_loop casefold st content = Ok st' → seen_required st = true →
  seen_required st' = true.
Proof.
  revert st. induction content as [|line content IH]; intros st; simpl.
  - by intros [= <-].
  - intros Hloop Hseen. apply bind_eq_Ok in Hloop as (st1 & Hline & Hloop).
    apply (IH _ Hloop). apply ci_line_seen in Hline as [-> _].
    rewrite Hseen. apply orb_true_r.
Qed.

Lemma ci_loop_required_marker (st st' : ci_state) (content : list string) :
  ci_loop casefold st content = Ok st' →
  (∃ marker, marker ∈ content
             ∧ Str.contains "# required dependencies" marker = true) →
  seen_required st' = true.
Proof.
  revert st. induction content as [|line content IH]; intros st; simpl.
  - intros _ (marker & Hin & _). by apply elem_of_nil in Hin.
  - intros Hloop (marker & Hin & Hmarker).
    apply bind_eq_Ok in Hloop as (st1 & Hline & Hloop).
    apply elem_of_cons in Hin as [<- | Hin].
    + apply (ci_loop_seen_required _ _ _ Hloop).
      apply ci_line_seen in Hline as [-> _]. by rewrite Hmarker.
    + apply (IH _ Hloop). by exists marker.
Qed.

(** C7: a line that is reached in parsing mode (a line with the
    required marker comes before it; the line is no marker, no pip
    marker and not blank) and that does not have exactly one occurrence
    of its delimiter makes the reader raise [ValueError].  The
    occurrences are counted as [str.count] counts them: from the left
    and without overlap. *)
Theorem get_versions_from_ci_malformed_line
    (before : list string) (line : string) (after : list string) :
  (∃ marker, marker ∈ before
             ∧ Str.contains "# required dependencies" marker = true) →
  plain line →
  Str.count (delimiter line) line ≠ 1 →
  get_versions_from_ci casefold (before ++ line :: after) = Raise ValueError.
Proof.
  intros Hmarker Hplain Hcount. unfold get_versions_from_ci.
  rewrite ci_loop_app.
  destruct (ci_loop casefold ci_start before) as [st|e] eqn:Hbefore.
  - rewrite bind_Ok. simpl.
    rewrite (ci_line_plain _ _ Hplain (ci_loop_required_marker _ _ _ Hbefore Hmarker)).
    rewrite unpack2_Raise; [done|].
    rewrite split_length, delimiter_count_strip. lia.
  - apply ci_loop_exception in Hbefore as ->. done.
Qed.

Lemma ci_line_required_marker (st : ci_state) (line : string) :
  Str.contains "# required dependencies" line = true →
  ci_line casefold st line
  = Ok (CiState true (seen_optional st) (required_deps st) (optional_deps st)).
Proof. intros H. unfold ci_line. by rewrite H. Qed.

Lemma ci_line_optional_marker (st : ci_state) (line : string) :
  Str.contains "# required dependencies" line = false →
  Str.contains "# optional dependencies" line = true →
  ci_line casefold st line
  = Ok (CiState (seen_required st) true (required_deps st) (optional_deps st)).
Proof. intros H1 H2. unfold ci_line. by rewrite H1, H2. Qed.

Lemma ci_line_skip (st : ci_state) (line : string) :
  Str.contains "# required dependencies" line = false →
  Str.contains "# optional dependencies" line = false →
  Str.contains "- pip:" line = true ∨ Str.strip line = ""
  ∨ seen_required st = false →
  ci_line casefold st line = Ok st.
Proof.
  intros H1 H2 H3. unfold ci_line. rewrite H1, H2.
  destruct (Str.contains "- pip:" line); [done|].
  destruct H3 as [? | [Hblank | Hseen]]; [done | |].
  - by rewrite bool_decide_eq_false_2, andb_false_r by (by intros H; apply H).
  - by rewrite Hseen.
Qed.

Lemma declaration_delimiter (line : string) :
  CiSpec.declaration line
  = ('(item, version) ← unpack2 (Str.split (delimiter line) (Str.strip line));
     Ok (Str.slice_from 2 item, version)).
Proof.
  unfold CiSpec.declaration, delimiter. cbv zeta.
  by rewrite (contains_strip "=" "=").
Qed.

(** The loop of the code and the reader of the specification, from a
    mode on, when the markers come in order. *)
Lemma ci_loop_read (content : list string) :
  ∀ (m : CiSpec.mode) (required optional : gmap string string),
    CiSpec.markers_in_order m content = true →
    (st ← ci_loop casefold
            (CiState (CiSpec.flags m).1 (CiSpec.flags m).2 required optional)
            content;
     Ok (required_deps st, optional_deps st))
    = CiSpec.read casefold m required optional content.
Proof.
  induction content as [|line content IH]; intros m required optional Hord;
    [done|].
  cbn [ci_loop CiSpec.read CiSpec.markers_in_order] in *.
  unfold CiSpec.is_required_marker, CiSpec.is_optional_marker,
    CiSpec.is_pip_marker, CiSpec.is_blank in *.
  destruct (Str.contains "# required dependencies" line) eqn:Hreq.
  { rewrite ci_line_required_marker, bind_Ok by done.
    destruct m; [| |done]; apply (IH CiSpec.Required); exact Hord. }
  destruct (Str.contains "# optional dependencies" line) eqn:Hopt.
  { rewrite ci_line_optional_marker, bind_Ok by done.
    destruct m; [done| |]; apply (IH CiSpec.Optional); exact Hord. }
  destruct (Str.contains "- pip:" line) eqn:Hpip.
  { rewrite ci_line_skip, bind_Ok by auto. by apply IH. }
  destruct (decide (Str.strip line = "")) as [Hblank | Hblank].
  { rewrite ci_line_skip, bind_Ok by auto.
    rewrite bool_decide_eq_true_2 by done. by apply IH. }
  rewrite bool_decide_eq_false_2 by done. cbn [orb].
  destruct m.
  - rewrite ci_line_skip, bind_Ok by auto. by apply IH.
  - rewrite ci_line_plain, declaration_delimiter by done.
    destruct (unpack2 _) as [[item version]|e]; [|done].
    rewrite !bind_Ok. cbv zeta. cbn [seen_optional CiSpec.flags snd fst negb].
    case_decide; [by apply (IH CiSpec.Required)|].
    cbn [seen_required required_deps optional_deps].
    by apply (IH CiSpec.Required).
  - rewrite ci_line_plain, declaration_delimiter by done.
    destruct (unpack2 _) as [[item version]|e]; [|done].
    rewrite !bind_Ok. cbv zeta. cbn [seen_optional CiSpec.flags snd fst negb].
    case_decide; [by apply (IH CiSpec.Optional)|].
    cbn [seen_required required_deps optional_deps].
    by apply (IH CiSpec.Optional).
Qed.

(** C5, as the code has it: when the markers come in order (no optional
    marker before the first required marker, no required marker behind
    an optional marker), the reader returns what the reader of the
    specification returns: the lines behind a marker that are no
    marker, no pip marker and not blank are split at [==] if the line
    has it and else at [=], the first two characters of the left part
    are dropped, and the case-folded name is mapped to the version in
    the mapping of the mode. *)
Theorem get_versions_from_ci_by_mode (content : list string) :
  CiSpec.markers_in_order CiSpec.Outside content = true →
  get_versions_from_ci casefold content = CiSpec.get_versions casefold content.
Proof.
  intros Hord. unfold get_versions_from_ci, CiSpec.get_versions.
  by rewrite <- (ci_loop_read content CiSpec.Outside ∅ ∅ Hord).
Qed.

(** What a line does to the two mappings. *)
Lemma ci_line_cases (st st' : ci_state) (line : string) :
  ci_line casefold st line = Ok st' →
  (required_deps st' = required_deps st ∧ optional_deps st' = optional_deps st)
  ∨ ∃ item version,
      unpack2 (Str.split (delimiter line) (Str.strip line)) = Ok (item, version)
      ∧ plain line ∧ seen_required st = true
      ∧ (Str.slice_from 2 item ∉ EXCLUDE_DEPS)
      ∧ ((seen_optional st = false
          ∧ required_deps st'
            = <[casefold (Str.slice_from 2 item) := version]> (required_deps st)
          ∧ optional_deps st' = optional_deps st)
         ∨ (seen_optional st = true
            ∧ required_deps st' = required_deps st
            ∧ optional_deps st'
              = <[casefold (Str.slice_from 2 item) := version]> (optional_deps st))).
Proof.
  destruct (Str.contains "# required dependencies" line) eqn:Hreq.
  { rewrite ci_line_required_marker by done. intros [= <-]. by left. }
  destruct (Str.contains "# optional dependencies" line) eqn:Hopt.
  { rewrite ci_line_optional_marker by done. intros [= <-]. by left. }
  destruct (Str.contains "- pip:" line) eqn:Hpip.
  { rewrite ci_line_skip by auto. intros [= <-]. by left. }
  destruct (decide (Str.strip line = "")) as [Hblank | Hblank].
  { rewrite ci_line_skip by auto. intros [= <-]. by left. }
  destruct (seen_required st) eqn:Hseen.
  2: { rewrite ci_line_skip by auto. intros [= <-]. by left. }
  assert (Hplain : plain line) by done.
  rewrite ci_line_plain by done.
  destruct (unpack2 _) as [[item version]|e]; [|done].
  rewrite bind_Ok. cbv zeta. case_decide as Hex; [intros [= <-]; by left|].
  destruct (seen_optional st) eqn:Hso; cbn [negb]; intros [= <-]; right;
    exists item, version; split_and!; try done; [right | left]; done.
Qed.

(** Where an entry of the mappings that [ci_loop] returns comes from. *)
Lemma ci_loop_lookup (content : list string) (st st' : ci_state)
    (key v : string) :
  ci_loop casefold st content = Ok st' →
  required_deps st' !! key = Some v ∨ optional_deps st' !! key = Some v →
  (required_deps st !! key = Some v ∨ optional_deps st !! key = Some v)
  ∨ ∃ line item,
      line ∈ content
      ∧ unpack2 (Str.split (delimiter line) (Str.strip line)) = Ok (item, v)
      ∧ key = casefold (Str.slice_from 2 item).
Proof.
  revert st. induction content as [|line content IH]; intros st; simpl.
  - intros [= <-] H. by left.
  - intros Hloop Hkey. apply bind_eq_Ok in Hloop as (st1 & Hline & Hloop).
    destruct (IH _ Hloop Hkey) as [Hst1 | (line' & item & Hin & Hsplit & Hk)].
    2: { right. exists line', item. split_and!; [by apply list_elem_of_further|done..]. }
    destruct (ci_line_cases _ _ _ Hline)
      as [[Hr Ho] | (item & version & Hsplit & _ & _ & _ & Hput)];
      [rewrite Hr, Ho in Hst1; by left|].
    assert (Hnew : key = casefold (Str.slice_from 2 item) ∧ v = version
                   ∨ (required_deps st !! key = Some v
                      ∨ optional_deps st !! key = Some v)).
    { destruct Hput as [(_ & Hr & Ho) | (_ & Hr & Ho)];
        rewrite Hr, Ho in Hst1; destruct Hst1 as [Hst1 | Hst1];
        try (right; auto; fail);
        rewrite lookup_insert in Hst1; case_decide;
        [ injection Hst1 as <-; by left | right; auto
        | injection Hst1 as <-; by left | right; auto ]. }
    destruct Hnew as [[-> ->] | Hold]; [|by left].
    right. exists line, item. split_and!; [apply list_elem_of_here | done..].
Qed.

(** The two flags behind a run of lines. *)
Lemma ci_loop_flags (content : list string) (st st' : ci_state) :
  ci_loop casefold st content = Ok st' →
  seen_required st'
  = seen_required st
    || existsb (Str.contains "# required dependencies") content
  ∧ seen_optional st'
    = seen_optional st || existsb sets_seen_optional content.
Proof.
  revert st. induction content as [|line content IH]; intros st; simpl.
  - intros [= <-]. by rewrite !orb_false_r.
  - intros Hloop. apply bind_eq_Ok in Hloop as (st1 & Hline & Hloop).
    destruct (IH _ Hloop) as [-> ->].
    apply ci_line_seen in Hline as [-> ->]. unfold sets_seen_optional.
    split.
    + destruct (Str.contains "# required dependencies" line),
        (seen_required st); done.
    + destruct (negb _ && _), (seen_optional st); done.
Qed.

Lemma ci_loop_snoc (content : list string) (line : string) (st st' : ci_state) :
  ci_loop casefold st (content ++ [line]) = Ok st'
  ↔ ∃ st1, ci_loop casefold st content = Ok st1
           ∧ ci_line casefold st1 line = Ok st'.
Proof.
  rewrite ci_loop_app, bind_eq_Ok. cbn [ci_loop].
  split; intros (st1 & Hloop & Hline); exists st1; split; try done.
  - apply bind_eq_Ok in Hline as (st2 & Hline & [= <-]). done.
  - by rewrite Hline.
Qed.

(** The names that a line adds to the mapping [b]: the optional mapping
    for [true], the required mapping for [false]. *)
Lemma ci_line_dom (st st' : ci_state) (line : string) (b : bool) (key : string) :
  ci_line casefold st line = Ok st' →
  key ∈ dom (if b then optional_deps st' else required_deps st')
  ↔ key ∈ dom (if b then optional_deps st else required_deps st)
    ∨ (seen_required st = true ∧ seen_optional st = b ∧ plain line
       ∧ ∃ item version,
           unpack2 (Str.split (delimiter line) (Str.strip line))
           = Ok (item, version)
           ∧ (Str.slice_from 2 item ∉ EXCLUDE_DEPS)
           ∧ key = casefold (Str.slice_from 2 item)).
Proof.
  intros Hline. split.
  - intros Hkey.
    destruct (ci_line_cases _ _ _ Hline)
      as [[Hr Ho] | (item & version & Hparts & Hplain & Hsr & Hex & Hput)].
    { left. rewrite Hr, Ho in Hkey. done. }
    destruct Hput as [(Hso & Hr & Ho) | (Hso & Hr & Ho)];
      rewrite Hr, Ho in Hkey; destruct b; try (by left);
      rewrite dom_insert_L in Hkey;
      apply elem_of_union in Hkey as [Hnew%elem_of_singleton | Hold];
      try (by left); right; split_and!; try done; by exists item, version.
  - intros [Hold | (Hsr & Hso & Hplain & item & version & Hparts & Hex & ->)].
    + destruct (ci_line_cases _ _ _ Hline)
        as [[Hr Ho] | (item & version & _ & _ & _ & _ & Hput)].
      { by rewrite Hr, Ho. }
      destruct Hput as [(_ & Hr & Ho) | (_ & Hr & Ho)]; rewrite Hr, Ho;
        destruct b; try done; rewrite dom_insert_L; apply elem_of_union;
        by right.
    + rewrite ci_line_plain, Hparts, bind_Ok in Hline by done.
      cbv zeta in Hline. rewrite decide_False in Hline by done.
      rewrite Hso in Hline. destruct b; cbn [negb] in Hline;
        injection Hline as <-; cbn [required_deps optional_deps];
        rewrite dom_insert_L; apply elem_of_union; left;
        by apply elem_of_singleton.
Qed.

(** The names of the mapping [b] behind a run of lines: those it had,
    and the case-folded names of the declarations that the run reads
    into it. *)
Lemma ci_loop_dom (content : list string) (st st' : ci_state)
    (b : bool) (key : string) :
  ci_loop casefold st content = Ok st' →
  key ∈ dom (if b then optional_deps st' else required_deps st')
  ↔ key ∈ dom (if b then optional_deps st else required_deps st)
    ∨ ∃ before line after item version,
        content = before ++ line :: after
        ∧ seen_required st
          || existsb (Str.contains "# required dependencies") before = true
        ∧ seen_optional st || existsb sets_seen_optional before = b
        ∧ plain line
        ∧ unpack2 (Str.split (delimiter line) (Str.strip line))
          = Ok (item, version)
        ∧ (Str.slice_from 2 item ∉ EXCLUDE_DEPS)
        ∧ key = casefold (Str.slice_from 2 item).
Proof.
  revert st'. induction content as [|last content IH] using rev_ind; intros st'.
  - intros [= <-]. split; [by left|].
    intros [Hold | (before & line & after & item & version & Hnil & _)]; [done|].
    by destruct before.
  - intros Hloop. apply ci_loop_snoc in Hloop as (st1 & Hloop & Hline).
    rewrite (ci_line_dom _ _ _ _ _ Hline), (IH _ Hloop).
    destruct (ci_loop_flags _ _ _ Hloop) as [-> ->]. split.
    + intros [[Hold | (before & line & after & item & version & -> & Hrest)]
             | (Hsr & Hso & Hplain & item & version & Hparts & Hex & Hkey)].
      * by left.
      * right. exists before, line, (after ++ [last]), item, version.
        split; [by rewrite <- app_assoc | done].
      * right. by exists content, last, [], item, version.
    + intros [Hold | (before & line & after & item & version & Heq & Hrest)];
        [left; by left|].
      destruct (decide (after = [])) as [-> | Hne].
      * apply app_inj_tail in Heq as [-> ->].
        destruct Hrest as (Hsr & Hso & Hplain & Hparts & Hex & Hkey).
        right. split_and!; try done. by exists item, version.
      * destruct (exists_last Hne) as (after' & a & ->).
        change (before ++ line :: after' ++ [a])
          with (before ++ (line :: after') ++ [a]) in Heq.
        rewrite app_assoc in Heq. apply app_inj_tail in Heq as [-> ->].
        left. right. by exists before, line, after', item, version.
Qed.

End CiReader.

(** ** The names of the three mappings *)

Section Names.

Variable casefold : string → string.
Variable iteration_order : gset string → list string.
Hypothesis iteration_order_elements :
  ∀ X : gset string, iteration_order X ≡ₚ elements X.

Lemma normalized_code_dom im (versions : Table.t) (key : string) :
  key ∈ dom (normalized_code casefold im versions)
  ↔ ∃ k v, (k, v) ∈ versions ∧ k ≠ "pytest"
           ∧ key = casefold (default k (im !! k)).
Proof.
  unfold normalized_code.
  enough (∀ acc : gmap string string,
    key ∈ dom (fold_left
                 (λ (d : gmap string string) (kv : string * string),
                    if decide (kv.1 ≠ "pytest")
                    then <[casefold (default kv.1 (im !! kv.1)) := kv.2]> d
                    else d) versions acc)
    ↔ key ∈ dom acc
      ∨ ∃ k v, (k, v) ∈ versions ∧ k ≠ "pytest"
               ∧ key = casefold (default k (im !! k))) as H.
  { rewrite H, dom_empty_L. split; [|auto].
    intros [Hempty | Hsome]; [by apply not_elem_of_empty in Hempty | done]. }
  induction versions as [|[k0 v0] versions IH]; intros acc; simpl.
  - split; [auto|]. intros [H | (k & v & Hin & _)]; [done|].
    by apply elem_of_nil in Hin.
  - rewrite IH. split.
    + intros [Hacc | (k & v & Hin & Hk & Hkey)].
      * case_decide as Hp; [|by left].
        apply elem_of_dom in Hacc. rewrite lookup_insert in Hacc.
        case_decide as Hc; [|left; by apply elem_of_dom].
        right. exists k0, v0. split_and!; [apply list_elem_of_here|done..].
      * right. exists k, v. split_and!; [by apply list_elem_of_further|done..].
    + intros [Hacc | (k & v & Hin & Hk & Hkey)].
      * left. case_decide; [|done]. rewrite dom_insert_L.
        apply elem_of_union. by right.
      * apply elem_of_cons in Hin as [[= -> ->] | Hin].
        -- left. rewrite decide_True by done. rewrite dom_insert_L.
           apply elem_of_union. left. by apply elem_of_singleton.
        -- right. by exists k, v.
Qed.

(** The names of the mapping that the manifest reader returns. *)
Lemma get_versions_from_setup_dom im
    (parser : gmap string (gmap string string))
    (section : gmap string string) (setup_optional test : string)
    (d : gmap string string) (key : string) :
  parser !! "options.extras_require" = Some section →
  section !! "all" = Some setup_optional →
  section !! "test" = Some test →
  get_versions_from_setup casefold iteration_order im parser = Ok d →
  key ∈ dom d
  ↔ key ≠ "tzdata"
    ∧ ∃ entry package version,
        entry ∈ Str.split Str.newline (Str.slice_from 1 setup_optional)
        ∧ (entry ∉ Str.split Str.newline (Str.slice_from 1 test))
        ∧ unpack2 (Str.split ">=" (Str.strip entry)) = Ok (package, version)
        ∧ key = casefold (default package (im !! package)).
Proof.
  intros Hsec Hall Htest Hret.
  rewrite (get_versions_from_setup_eq _ _ iteration_order_elements
             _ _ _ _ _ Hsec Hall Htest) in Hret.
  apply bind_eq_Ok in Hret as (m & Hloop & Hpop).
  apply pop_eq_Ok in Hpop as [_ ->].
  assert (Hleft : ∀ entry,
    entry ∈ remove_test_dependencies
              (Str.split Str.newline (Str.slice_from 1 setup_optional))
              (list_to_set (Str.split Str.newline (Str.slice_from 1 test)))
    ↔ entry ∈ Str.split Str.newline (Str.slice_from 1 setup_optional)
      ∧ entry ∉ Str.split Str.newline (Str.slice_from 1 test)).
  { intros entry. unfold remove_test_dependencies.
    rewrite list_elem_of_filter, elem_of_list_to_set. tauto. }
  rewrite dom_delete_L, elem_of_difference, elem_of_singleton. split.
  - intros [[v Hv]%elem_of_dom Hne]. split; [done|].
    destruct (setup_loop_lookup _ _ _ _ _ _ _ Hloop Hv)
      as [Hempty | (entry & package & Hin & Hparts & Hkey)].
    { by rewrite lookup_empty in Hempty. }
    apply Hleft in Hin as [Hin Hout]. by exists entry, package, v.
  - intros (Hne & entry & package & version & Hin & Hout & Hparts & Hkey).
    split; [|done]. apply elem_of_dom.
    apply (setup_loop_dom casefold im ∅ m _ key Hloop). right.
    exists entry, package, version. split_and!; [by apply Hleft | done..].
Qed.

(** C2, as the code has it: the names of the code table and of the
    manifest go through the alias mapping and are then case-folded; the
    names of the CI file are case-folded only, the CI reader does not
    look into the alias mapping.  For each reader that returns, the
    names of its mapping are exactly the normalized names that it has
    read: of the entries of the table other than the excluded package
    and [pytest]; of the entries of [all] that are not entries of
    [test], without the excluded package; of the declarations behind a
    required marker whose name as written is not excluded, in the
    required mapping before a line has set [seen_optional] and in the
    optional mapping behind it. *)
Theorem names_of_the_three_mappings im :
  (∀ (V : Table.t) d key,
     (get_versions_from_code casefold iteration_order im V).1 = Ok d →
     (key ∈ dom d
      ↔ ∃ k v, (k, v) ∈ V ∧ k ≠ "tzdata" ∧ k ≠ "pytest"
               ∧ key = casefold (default k (im !! k))))
  ∧ (∀ (parser : gmap string (gmap string string)) section
       setup_optional test d key,
       parser !! "options.extras_require" = Some section →
       section !! "all" = Some setup_optional →
       section !! "test" = Some test →
       get_versions_from_setup casefold iteration_order im parser = Ok d →
       (key ∈ dom d
        ↔ key ≠ "tzdata"
          ∧ ∃ entry package version,
              entry ∈ Str.split Str.newline (Str.slice_from 1 setup_optional)
              ∧ (entry ∉ Str.split Str.newline (Str.slice_from 1 test))
              ∧ unpack2 (Str.split ">=" (Str.strip entry))
                = Ok (package, version)
              ∧ key = casefold (default package (im !! package))))
  ∧ (∀ content required optional key (b : bool),
       get_versions_from_ci casefold content = Ok (required, optional) →
       (key ∈ dom (if b then optional else required)
        ↔ ∃ before line after item version,
            content = before ++ line :: after
            ∧ (∃ marker, marker ∈ before
                 ∧ Str.contains "# required dependencies" marker = true)
            ∧ existsb sets_seen_optional before = b
            ∧ plain line
            ∧ unpack2 (Str.split (delimiter line) (Str.strip line))
              = Ok (item, version)
            ∧ (Str.slice_from 2 item ∉ EXCLUDE_DEPS)
            ∧ key = casefold (Str.slice_from 2 item))).
Proof.
  split_and!.
  - intros V d key Hret.
    destruct (decide ("tzdata" ∈ Table.keys V)) as [Hin | Hout].
    2: { by rewrite (get_versions_from_code_absent _ _
                       iteration_order_elements _ _ Hout) in Hret. }
    rewrite (get_versions_from_code_present _ _
               iteration_order_elements _ _ Hin) in Hret.
    injection Hret as <-. rewrite normalized_code_dom.
    split; intros (k & v & Hkv & Hrest); exists k, v.
    + apply list_elem_of_filter in Hkv as [Hne Hkv].
      destruct Hrest as [Hp Hkey]. by split_and!.
    + destruct Hrest as (Hne & Hp & Hkey). split_and!; [|done..].
      by apply list_elem_of_filter.
  - intros parser section setup_optional test d key Hsec Hall Htest Hret.
    by apply (get_versions_from_setup_dom im parser section setup_optional test).
  - intros content required optional key b Hret.
    unfold get_versions_from_ci in Hret.
    apply bind_eq_Ok in Hret as (st & Hloop & [= <- <-]).
    rewrite (ci_loop_dom casefold content ci_start st b key Hloop).
    cbn [ci_start seen_required seen_optional required_deps optional_deps orb].
    assert (Hmarker : ∀ before : list string,
      existsb (Str.contains "# required dependencies") before = true
      ↔ ∃ marker, marker ∈ before
                  ∧ Str.contains "# required dependencies" marker = true).
    { intros before. rewrite existsb_exists.
      split; intros (marker & Hin & Hm); exists marker;
        (split; [by apply list_elem_of_In | done]). }
    split.
    + intros [Hempty | (before & line & after & item & version & Hc & Hm & Hrest)].
      { destruct b; by apply not_elem_of_empty in Hempty. }
      exists before, line, after, item, version.
      split; [done|]. split; [by apply Hmarker | done].
    + intros (before & line & after & item & version & Hc & Hm & Hrest).
      right. exists before, line, after, item, version.
      split; [done|]. split; [by apply Hmarker | done].
Qed.

End Names.

(** ** The required section of the CI file *)

Section RequiredSection.

Variable casefold : string → string.
Variable iteration_order : gset string → list string.

Lemma ci_line_drop_required (st : ci_state) (line : string) :
  (st' ← ci_line casefold st line; Ok (drop_required st'))
  = (st' ← ci_line casefold (drop_required st) line; Ok (drop_required st')).
Proof.
  destruct st as [sr so required optional]. unfold ci_line, drop_required.
  cbn [seen_required seen_optional required_deps optional_deps].
  destruct (Str.contains "# required dependencies" line); [done|].
  destruct (Str.contains "# optional dependencies" line); [done|].
  destruct (Str.contains "- pip:" line); [done|].
  destruct (sr && _); [|done].
  destruct (Str.contains "==" line).
  all: destruct (unpack2 _) as [[package version]|e]; [|done];
    rewrite !bind_Ok; cbv zeta; case_decide; [done|]; by destruct so.
Qed.

Lemma ci_loop_drop_required (content : list string) (st : ci_state) :
  (st' ← ci_loop casefold st content; Ok (drop_required st'))
  = (st' ← ci_loop casefold (drop_required st) content; Ok (drop_required st')).
Proof.
  revert st. induction content as [|line content IH]; intros st; [done|].
  cbn [ci_loop]. pose proof (ci_line_drop_required st line) as Hline.
  destruct (ci_line casefold st line) as [st1|e1],
    (ci_line casefold (drop_required st) line) as [st2|e2];
    rewrite ?bind_Ok, ?bind_Raise in *; try done.
  assert (Hdrop : drop_required st1 = drop_required st2) by congruence.
  rewrite IH, (IH st2). by rewrite Hdrop.
Qed.

Lemma ci_loop_optional_deps (content : list string) (sr so : bool)
    (required1 required2 optional : gmap string string) :
  (st ← ci_loop casefold (CiState sr so required1 optional) content;
   Ok (optional_deps st))
  = (st ← ci_loop casefold (CiState sr so required2 optional) content;
     Ok (optional_deps st)).
Proof.
  pose proof (ci_loop_drop_required content
                (CiState sr so required1 optional)) as H1.
  pose proof (ci_loop_drop_required content
                (CiState sr so required2 optional)) as H2.
  change (drop_required (CiState sr so required2 optional))
    with (drop_required (CiState sr so required1 optional)) in H2.
  rewrite <- H2 in H1. clear H2.
  destruct (ci_loop casefold (CiState sr so required1 optional) content) as [a|e1],
    (ci_loop casefold (CiState sr so required2 optional) content) as [b|e2];
    rewrite ?bind_Ok, ?bind_Raise in *; try done.
  - injection H1 as _ _ H1. by rewrite H1.
  - congruence.
Qed.

(** Before the optional marker nothing enters the optional mapping. *)
Lemma ci_loop_before_optional (content : list string) (st st' : ci_state) :
  ci_loop casefold st content = Ok st' →
  seen_optional st = false →
  (∀ line, line ∈ content → Str.contains "# optional dependencies" line = false) →
  seen_optional st' = false ∧ optional_deps st' = optional_deps st.
Proof.
  revert st. induction content as [|line content IH]; intros st; simpl.
  - by intros [= <-].
  - intros Hloop Hso Hnone. apply bind_eq_Ok in Hloop as (st1 & Hline & Hloop).
    pose proof (Hnone line (list_elem_of_here _ _)) as Hopt.
    pose proof (ci_line_seen _ _ _ _ Hline) as [_ Hso1].
    rewrite Hopt, Hso, andb_false_r in Hso1. simpl in Hso1.
    destruct (IH st1 Hloop Hso1) as [Hso' Hopt'].
    { intros l Hl. by apply Hnone, list_elem_of_further. }
    split; [done|]. rewrite Hopt'.
    destruct (ci_line_cases _ _ _ _ Hline)
      as [[_ Ho] | (item & version & _ & _ & _ & _ & Hput)]; [done|].
    destruct Hput as [(_ & _ & Ho) | (Hso2 & _)]; [done | congruence].
Qed.

Lemma main_optional (ci_path code_path setup_path : string)
    (content : list string) im (V : Table.t)
    (parser : gmap string (gmap string string)) :
  main casefold iteration_order ci_path code_path setup_path content im V parser
  = (ci_optional ←
       (st ← ci_loop casefold ci_start content; Ok (optional_deps st));
     code_optional ← (get_versions_from_code casefold iteration_order im V).1;
     setup_optional ← get_versions_from_setup casefold iteration_order im parser;
     Ok (compare_and_exit iteration_order ci_path code_path setup_path
           ci_optional code_optional setup_optional)).
Proof.
  unfold main, get_versions_from_ci.
  by destruct (ci_loop casefold ci_start content).
Qed.

(** C10, as the code has it: two CI files that differ only in the
    lines between the required marker and the optional marker, and
    whose lines up to the optional marker are read without an
    exception, give the same run of [main]. *)
Theorem main_ignores_required_section
    (ci_path code_path setup_path : string)
    (before : list string) (required_marker : string)
    (required1 required2 : list string) (optional_marker : string)
    (after : list string)
    im (V : Table.t) (parser : gmap string (gmap string string)) :
  Str.contains "# required dependencies" required_marker = true →
  Str.contains "# required dependencies" optional_marker = false →
  Str.contains "# optional dependencies" optional_marker = true →
  (∀ line, line ∈ before ++ required1 ++ required2 →
           Str.contains "# optional dependencies" line = false) →
  ¬ raises (get_versions_from_ci casefold (before ++ required_marker :: required1)) →
  ¬ raises (get_versions_from_ci casefold (before ++ required_marker :: required2)) →
  main casefold iteration_order ci_path code_path setup_path
    (before ++ required_marker :: required1 ++ optional_marker :: after)
    im V parser
  = main casefold iteration_order ci_path code_path setup_path
      (before ++ required_marker :: required2 ++ optional_marker :: after)
      im V parser.
Proof.
  intros Hreq Hopt1 Hopt2 Hnone Hok1 Hok2. rewrite !main_optional. f_equal.
  assert (Hsection : ∀ required,
    (∀ line, line ∈ required →
             Str.contains "# optional dependencies" line = false) →
    ¬ raises (get_versions_from_ci casefold (before ++ required_marker :: required)) →
    (st ← ci_loop casefold ci_start
            (before ++ required_marker :: required ++ optional_marker :: after);
     Ok (optional_deps st))
    = (st ← ci_loop casefold (CiState true true ∅ ∅) after;
       Ok (optional_deps st))).
  { intros required Hrequired Hok.
    unfold get_versions_from_ci in Hok.
    rewrite ci_loop_app in *.
    destruct (ci_loop casefold ci_start before) as [st0|e] eqn:Hbefore;
      [|by destruct Hok].
    rewrite bind_Ok in *.
    destruct (ci_loop_before_optional _ _ _ Hbefore eq_refl) as [Hso0 Hopt0].
    { intros line Hin. apply Hnone. apply elem_of_app. by left. }
    cbn [ci_loop] in *. rewrite ci_line_required_marker, bind_Ok in * by done.
    rewrite ci_loop_app.
    destruct (ci_loop casefold _ required) as [st1|e] eqn:Hsection;
      [|by destruct Hok].
    rewrite bind_Ok.
    destruct (ci_loop_before_optional _ _ _ Hsection Hso0 Hrequired)
      as [Hso1 Hopt1'].
    pose proof (ci_loop_seen_required _ _ _ _ Hsection eq_refl) as Hsr1.
    cbn [ci_loop]. rewrite ci_line_optional_marker, bind_Ok by done.
    cbn [optional_deps] in Hopt1'. rewrite Hsr1, Hopt1', Hopt0. simpl.
    apply ci_loop_optional_deps. }
  rewrite !Hsection; [done | | done | | done].
  - intros line Hin. apply Hnone. rewrite !elem_of_app. auto.
  - intros line Hin. apply Hnone. rewrite !elem_of_app. auto.
Qed.

End RequiredSection.

(** * The properties on the examples *)

Lemma elements_order (X : gset string) : elements X ≡ₚ elements X.
Proof. reflexivity. Defined.

(** C1 on three mappings that disagree on one version. *)
Lemma compare_and_exit_report_witness :
  status (compare_and_exit elements "ci.yaml" "_optional.py" "setup.cfg"
            {[ "numpy" := "1.20" ]} {[ "numpy" := "1.21" ]} {[ "numpy" := "1.20" ]})
  = 1.
Proof.
  destruct (compare_and_exit_report elements elements_order
              "ci.yaml" "_optional.py" "setup.cfg"
              {[ "numpy" := "1.20" ]} {[ "numpy" := "1.21" ]} {[ "numpy" := "1.20" ]})
    as (_ & _ & Hreport).
  destruct Hreport as (packages & _ & _ & _ & Hstatus); [|exact Hstatus].
  intros Hempty.
  apply (not_elem_of_empty (C := gset (string * string)) ("numpy", "1.21")).
  rewrite <- Hempty. apply elem_of_diff_of. split.
  - right. left. vm_compute. reflexivity.
  - intros (Hci & _). vm_compute in Hci. discriminate Hci.
Defined.

(** C2, as the spec has it, fails: the CI file has the import name, the
    code table has it too, the manifest has the distribution name; the
    key of the CI mapping is not the key of the two other mappings. *)
Lemma import_name_in_ci_file :
  get_versions_from_ci ascii_casefold alias_ci = Ok (∅, {[ "bs4" := "4.9.3" ]})
  ∧ (get_versions_from_code ascii_casefold elements alias_map alias_versions).1
    = Ok {[ "beautifulsoup4" := "4.9.3" ]}
  ∧ get_versions_from_setup ascii_casefold elements alias_map alias_parser
    = Ok {[ "beautifulsoup4" := "4.9.3" ]}.
Proof. split_and!; vm_compute; reflexivity. Qed.

(** C2 on the same example: the import name of the CI file is in the
    optional mapping under its case-folded form, without the alias. *)
Lemma names_of_the_three_mappings_witness :
  get_versions_from_ci ascii_casefold alias_ci = Ok (∅, {[ "bs4" := "4.9.3" ]})
  ∧ "bs4" ∈ dom ({[ "bs4" := "4.9.3" ]} : gmap string string).
Proof.
  split; [vm_compute; reflexivity|].
  apply (proj2 (proj2 (names_of_the_three_mappings ascii_casefold elements
                         elements_order alias_map))
           alias_ci ∅ {[ "bs4" := "4.9.3" ]} "bs4" true).
  - vm_compute. reflexivity.
  - exists [nl "  # required dependencies"; nl "  # optional dependencies"],
      (nl "  - bs4=4.9.3"), [], "- bs4", "4.9.3".
    split_and!.
    + reflexivity.
    + exists (nl "  # required dependencies").
      split; [apply list_elem_of_here | vm_compute; reflexivity].
    + vm_compute. reflexivity.
    + split_and!; [vm_compute; reflexivity.. |].
      intros Hblank. vm_compute in Hblank. discriminate Hblank.
    + vm_compute. reflexivity.
    + intros Hin. apply elem_of_singleton in Hin. vm_compute in Hin.
      discriminate Hin.
    + vm_compute. reflexivity.
Defined.

(** C4 fails on the code: the excluded package, written in capitals in
    the CI file, is reported. *)
Theorem excluded_package_in_capitals_is_reported :
  main ascii_casefold elements "ci.yaml" "_optional.py" "setup.cfg"
    capitals_ci ∅ capitals_versions capitals_parser
  = Ok (Exit
          [ report_head "ci.yaml" "_optional.py" "setup.cfg";
            nl "tzdata" +:+ nl "ci.yaml: 2022a"
            +:+ nl "_optional.py: Not specified"
            +:+ nl "setup.cfg: Not specified" +:+ Str.newline ]
          1).
Proof. vm_compute. reflexivity. Qed.

(** C5, as the spec has it, fails: behind an optional marker that no
    required marker precedes, the code reads nothing. *)
Lemma get_versions_from_ci_optional_marker_only :
  get_versions_from_ci ascii_casefold ci_optional_marker_only = Ok (∅, ∅)
  ∧ CiSpec.get_versions ascii_casefold ci_optional_marker_only
    = Ok (∅, {[ "numpy" := "1.20" ]}).
Proof. split; vm_compute; reflexivity. Qed.

(** C5 on a file whose markers come in order. *)
Lemma get_versions_from_ci_by_mode_witness :
  CiSpec.markers_in_order CiSpec.Outside sample_ci = true
  ∧ get_versions_from_ci ascii_casefold sample_ci
    = CiSpec.get_versions ascii_casefold sample_ci.
Proof.
  split; [vm_compute; reflexivity|].
  apply (get_versions_from_ci_by_mode ascii_casefold sample_ci).
  vm_compute. reflexivity.
Defined.


(** C7 on a line without a delimiter behind the required marker. *)
Lemma get_versions_from_ci_malformed_line_witness :
  get_versions_from_ci ascii_casefold
    [nl "  # required dependencies"; nl "  - python"; nl "  - numpy=1.20"]
  = Raise ValueError.
Proof.
  apply (get_versions_from_ci_malformed_line ascii_casefold
           [nl "  # required dependencies"] (nl "  - python") [nl "  - numpy=1.20"]).
  - exists (nl "  # required dependencies"). split; [apply list_elem_of_here|].
    vm_compute. reflexivity.
  - split_and!; [vm_compute; reflexivity.. |].
    intros Hblank. vm_compute in Hblank. discriminate Hblank.
  - intros Hcount. vm_compute in Hcount. discriminate Hcount.
Defined.

(** C8 on a table with the excluded package. *)
Lemma get_versions_from_code_pops_in_place_witness :
  (get_versions_from_code ascii_casefold elements ∅
     (get_versions_from_code ascii_casefold elements ∅ sample_versions).2).1
  = Raise (KeyError "tzdata").
Proof.
  exact (proj2 (proj2 (get_versions_from_code_pops_in_place
                         ascii_casefold elements elements_order ∅ sample_versions))).
Defined.

(** C9 on a manifest without the excluded package. *)
Lemma get_versions_from_setup_requires_excluded_witness :
  get_versions_from_setup ascii_casefold elements ∅ parser_without_tzdata
  = Raise (KeyError "tzdata").
Proof.
  apply (proj1 (get_versions_from_setup_requires_excluded
                  ascii_casefold elements elements_order ∅ parser_without_tzdata
                  {[ "all" := Str.newline +:+ "numpy>=1.20";
                     "test" := Str.newline +:+ "pytest>=6.0" ]}
                  (Str.newline +:+ "numpy>=1.20") (Str.newline +:+ "pytest>=6.0")
                  eq_refl eq_refl eq_refl)
           {[ "numpy" := "1.20" ]} "tzdata").
  - vm_compute. reflexivity.
  - by apply elem_of_singleton.
  - vm_compute. reflexivity.
Defined.

(** C10, as the spec has it, fails: two files that differ in one line of
    the required section; the run on the first exits with 0, the run on
    the second ends with [ValueError]. *)
Lemma main_required_section_malformed :
  main ascii_casefold elements "ci.yaml" "_optional.py" "setup.cfg"
    sample_ci ∅ sample_versions sample_parser
  = Ok (Exit [] 0)
  ∧ main ascii_casefold elements "ci.yaml" "_optional.py" "setup.cfg"
      sample_ci_malformed_required ∅ sample_versions sample_parser
    = Raise ValueError.
Proof. split; vm_compute; reflexivity. Qed.

(** C10 on two files whose required sections are read without an
    exception. *)
Lemma main_ignores_required_section_witness :
  main ascii_casefold elements "ci.yaml" "_optional.py" "setup.cfg"
    sample_ci ∅ sample_versions sample_parser
  = main ascii_casefold elements "ci.yaml" "_optional.py" "setup.cfg"
      sample_ci_other_required ∅ sample_versions sample_parser.
Proof.
  apply (main_ignores_required_section ascii_casefold elements
           "ci.yaml" "_optional.py" "setup.cfg"
           [nl "name: pandas-dev"; nl "dependencies:"]
           (nl "  # required dependencies")
           [nl "  - python=3.8"; nl ""]
           [nl "  - python=3.9"; nl "  - pytz=2020.1"]
           (nl "  # optional dependencies")
           [nl "  - NumPy=1.20"; nl "  - pip:"; nl "  - tzdata=2022a"]).
  - vm_compute. reflexivity.
  - vm_compute. reflexivity.
  - vm_compute. reflexivity.
  - intros line Hin. apply list_elem_of_In in Hin. simpl in Hin.
    repeat (destruct Hin as [<- | Hin]; [vm_compute; reflexivity|]).
    destruct Hin.
  - intros Hraise. vm_compute in Hraise. exact Hraise.
  - intros Hraise. vm_compute in Hraise. exact Hraise.
Defined.

(** * Further properties *)

(** ** When [main] exits with 0, and what it reports *)

Section Agreement.

Variable casefold : string → string.
Variable iteration_order : gset string → list string.
Hypothesis iteration_order_elements :
  ∀ X : gset string, iteration_order X ≡ₚ elements X.

Lemma diff_of_empty (ci code setup : gmap string string) :
  diff_of ci code setup = ∅ ↔ ci = code ∧ code = setup.
Proof.
  split.
  - intros Hempty.
    assert (Hall : ∀ k v,
      ci !! k = Some v ∨ code !! k = Some v ∨ setup !! k = Some v →
      ci !! k = Some v ∧ code !! k = Some v ∧ setup !! k = Some v).
    { intros k v Hsome.
      destruct (decide (ci !! k = Some v ∧ code !! k = Some v
                        ∧ setup !! k = Some v)) as [Hyes | Hno]; [done|].
      exfalso. apply (not_elem_of_empty (C := gset (string * string)) (k, v)).
      rewrite <- Hempty. by apply elem_of_diff_of. }
    assert (Heq : ∀ k, ci !! k = code !! k ∧ code !! k = setup !! k).
    { intros k.
      destruct (ci !! k) as [v|] eqn:Hci.
      { destruct (Hall k v) as (_ & -> & ->); auto. }
      destruct (code !! k) as [v|] eqn:Hcode.
      { destruct (Hall k v) as (Hc & _); auto. congruence. }
      destruct (setup !! k) as [v|] eqn:Hsetup; [|done].
      destruct (Hall k v) as (Hc & _); auto. congruence. }
    split; apply map_eq; intros k; by destruct (Heq k).
  - intros [-> ->]. unfold diff_of. apply set_eq. intros [k v].
    rewrite elem_of_difference, !elem_of_union, !elem_of_intersection.
    split; [tauto|]. intros Hin. by apply not_elem_of_empty in Hin.
Qed.

(** X1: [main] returns with nothing written and status 0 exactly when
    the three readers return and their three optional mappings are the
    same mapping. *)
Theorem main_exit_0 (ci_path code_path setup_path : string)
    (content : list string) im (V : Table.t)
    (parser : gmap string (gmap string string)) :
  main casefold iteration_order ci_path code_path setup_path content im V parser
  = Ok (Exit [] 0)
  ↔ ∃ required optional,
      get_versions_from_ci casefold content = Ok (required, optional)
      ∧ (get_versions_from_code casefold iteration_order im V).1 = Ok optional
      ∧ get_versions_from_setup casefold iteration_order im parser = Ok optional.
Proof.
  unfold main.
  destruct (get_versions_from_ci casefold content) as [[required ci]|e];
    [|split; [done | by intros (? & ? & [=] & _)]].
  destruct (get_versions_from_code casefold iteration_order im V).1 as [code|e];
    [|split; [done | by intros (? & ? & _ & [=] & _)]].
  destruct (get_versions_from_setup casefold iteration_order im parser)
    as [setup|e]; [|split; [done | by intros (? & ? & _ & _ & [=])]].
  rewrite !bind_Ok. unfold compare_and_exit.
  destruct (decide (diff_of ci code setup ≠ ∅)) as [Hne | Hempty].
  - split; [done|]. intros (r & o & [= <- <-] & [= <-] & [= <-]).
    exfalso. apply Hne. by apply diff_of_empty.
  - apply dec_stable in Hempty. apply diff_of_empty in Hempty as [-> ->].
    split; [|done]. intros _. by exists required, setup.
Qed.

(** X2: the packages of the report are those for which the three
    mappings do not give the same answer, a missing entry being an
    answer of its own; each is reported once, and there is no report
    when there is no such package. *)
Theorem compare_and_exit_reported (ci_path code_path setup_path : string)
    (ci_optional code_optional setup_optional : gmap string string) :
  ∃ packages : list string,
    NoDup packages
    ∧ (∀ package,
         package ∈ packages
         ↔ ¬ (ci_optional !! package = code_optional !! package
              ∧ code_optional !! package = setup_optional !! package))
    ∧ written (compare_and_exit iteration_order ci_path code_path setup_path
                 ci_optional code_optional setup_optional)
      = match packages with
        | [] => []
        | _ =>
            report_head ci_path code_path setup_path
            :: map (report_entry ci_path code_path setup_path
                      ci_optional code_optional setup_optional) packages
        end.
Proof.
  set (diff := diff_of ci_optional code_optional setup_optional).
  assert (Hpackage : ∀ package,
    (∃ v, (package, v) ∈ diff)
    ↔ ¬ (ci_optional !! package = code_optional !! package
         ∧ code_optional !! package = setup_optional !! package)).
  { intros package. split.
    - intros [v Hin]. apply elem_of_diff_of in Hin as [Hsome Hnot].
      intros [H1 H2]. apply Hnot. rewrite <- H2, <- H1 in *.
      destruct Hsome as [? | [? | ?]]; done.
    - intros Hnot.
      destruct (ci_optional !! package) as [v|] eqn:Hci.
      { exists v. apply elem_of_diff_of. split; [by left|].
        intros (_ & Hc & Hs). apply Hnot. by rewrite Hc, Hs. }
      destruct (code_optional !! package) as [v|] eqn:Hcode.
      { exists v. apply elem_of_diff_of. split; [right; by left|].
        intros (Hc & _). congruence. }
      destruct (setup_optional !! package) as [v|] eqn:Hsetup.
      { exists v. apply elem_of_diff_of. split; [right; by right|].
        intros (Hc & _). congruence. }
      by destruct Hnot. }
  assert (Hmember : ∀ package,
    package ∈ iteration_order (set_map (D := gset string) fst diff)
    ↔ ∃ v, (package, v) ∈ diff).
  { intros package. rewrite (elem_of_iteration_order _ iteration_order_elements).
    rewrite elem_of_map. split.
    - intros ([k v] & -> & Hin). by exists v.
    - intros [v Hin]. by exists (package, v). }
  unfold compare_and_exit. fold diff.
  destruct (decide (diff ≠ ∅)) as [Hne | Hempty].
  - exists (iteration_order (set_map (D := gset string) fst diff)). split_and!.
    + by apply NoDup_iteration_order.
    + intros package. by rewrite Hmember.
    + simpl.
      destruct (iteration_order (set_map (D := gset string) fst diff))
        as [|p ps] eqn:Horder; [|done].
      exfalso. apply Hne. apply set_eq. intros [k v]. split; [|by intros ?%not_elem_of_empty].
      intros Hin. assert (k ∈ @nil string) as Hk; [|by apply elem_of_nil in Hk].
      apply Hmember. by exists v.
  - apply dec_stable in Hempty. exists []. split_and!.
    + apply NoDup_nil_2.
    + intros package. rewrite <- Hpackage, Hempty. split.
      * by intros ?%elem_of_nil.
      * by intros [v ?%not_elem_of_empty].
    + done.
Qed.

End Agreement.

(** ** More on the CI reader *)

Lemma unpack2_length (parts : list string) :
  length parts = 2 → ∃ a b, unpack2 parts = Ok (a, b).
Proof.
  destruct parts as [|a [|b [|c parts]]]; try done. intros _. by exists a, b.
Qed.

Section CiFurther.

Variable casefold : string → string.

Lemma ci_loop_no_required (content : list string) (st : ci_state) :
  seen_required st = false →
  (∀ line, line ∈ content →
           Str.contains "# required dependencies" line = false) →
  ∃ so, ci_loop casefold st content
        = Ok (CiState false so (required_deps st) (optional_deps st)).
Proof.
  revert st. induction content as [|line content IH]; intros st Hsr Hnone.
  - exists (seen_optional st). destruct st. simpl in *. by subst.
  - pose proof (Hnone line (list_elem_of_here _ _)) as Hreq.
    assert (Hrest : ∀ l, l ∈ content →
                         Str.contains "# required dependencies" l = false).
    { intros l Hl. by apply Hnone, list_elem_of_further. }
    cbn [ci_loop].
    destruct (Str.contains "# optional dependencies" line) eqn:Hopt.
    + rewrite ci_line_optional_marker, bind_Ok by done.
      destruct (IH (CiState (seen_required st) true (required_deps st)
                      (optional_deps st)) Hsr Hrest) as [so Hso].
      by exists so.
    + rewrite ci_line_skip, bind_Ok by auto. by apply IH.
Qed.

(** X3: on a file without the required marker the reader returns two
    empty mappings, whatever the lines are. *)
Theorem get_versions_from_ci_no_required_marker (content : list string) :
  (∀ line, line ∈ content →
           Str.contains "# required dependencies" line = false) →
  get_versions_from_ci casefold content = Ok (∅, ∅).
Proof.
  intros Hnone. unfold get_versions_from_ci.
  destruct (ci_loop_no_required content ci_start eq_refl Hnone) as [so ->].
  done.
Qed.

(** A line on which the body of the loop raises. *)
Lemma ci_line_Raise (st : ci_state) (line : string) (e : exception) :
  ci_line casefold st line = Raise e →
  seen_required st = true ∧ plain line
  ∧ Str.count (delimiter line) line ≠ 1.
Proof.
  destruct (Str.contains "# required dependencies" line) eqn:Hreq.
  { by rewrite ci_line_required_marker. }
  destruct (Str.contains "# optional dependencies" line) eqn:Hopt.
  { by rewrite ci_line_optional_marker. }
  destruct (Str.contains "- pip:" line) eqn:Hpip.
  { by rewrite ci_line_skip by auto. }
  destruct (decide (Str.strip line = "")) as [Hblank | Hblank].
  { by rewrite ci_line_skip by auto. }
  destruct (seen_required st) eqn:Hseen.
  2: { by rewrite ci_line_skip by auto. }
  assert (Hplain : plain line) by done.
  rewrite ci_line_plain by done. intros Hraise. split_and!; [done..|].
  intros Hcount.
  destruct (unpack2_length (Str.split (delimiter line) (Str.strip line)))
    as (a & b & Hparts).
  { rewrite split_length, delimiter_count_strip. lia. }
  rewrite Hparts, bind_Ok in Hraise. cbv zeta in Hraise.
  case_decide; [done|]. by destruct (negb _).
Qed.

Lemma ci_loop_Raise (content : list string) (st : ci_state) (e : exception) :
  ci_loop casefold st content = Raise e →
  ∃ before line after,
    content = before ++ line :: after
    ∧ (seen_required st = true
       ∨ ∃ marker, marker ∈ before
                   ∧ Str.contains "# required dependencies" marker = true)
    ∧ plain line
    ∧ Str.count (delimiter line) line ≠ 1.
Proof.
  revert st. induction content as [|line content IH]; intros st; [done|].
  cbn [ci_loop]. destruct (ci_line casefold st line) as [st1|e1] eqn:Hline.
  - rewrite bind_Ok. intros Hloop.
    destruct (IH _ Hloop) as (before & bad & after & -> & Hseen & Hplain & Hcount).
    exists (line :: before), bad, after. split_and!; [done | | done..].
    apply ci_line_seen in Hline as [Hsr _].
    destruct Hseen as [Hseen | (marker & Hin & Hmarker)].
    + rewrite Hsr in Hseen. apply orb_true_iff in Hseen as [Hm | Hs]; [|by left].
      right. exists line. split; [apply list_elem_of_here | done].
    + right. exists marker. split; [by apply list_elem_of_further | done].
  - intros _. apply ci_line_Raise in Hline as (Hseen & Hplain & Hcount).
    exists [], line, content. split_and!; [done | by left | done..].
Qed.

(** X4: the reader raises exactly when some line behind a required
    marker, that is no marker, no pip marker and not blank, does not
    have exactly one occurrence of its delimiter; what it raises is
    [ValueError]. *)
Theorem get_versions_from_ci_raises (content : list string) :
  (raises (get_versions_from_ci casefold content)
   ↔ ∃ before line after,
       content = before ++ line :: after
       ∧ (∃ marker, marker ∈ before
                    ∧ Str.contains "# required dependencies" marker = true)
       ∧ plain line
       ∧ Str.count (delimiter line) line ≠ 1)
  ∧ (∀ e, get_versions_from_ci casefold content = Raise e → e = ValueError).
Proof.
  unfold get_versions_from_ci. split.
  - split.
    + destruct (ci_loop casefold ci_start content) as [st|e] eqn:Hloop; [done|].
      intros _.
      destruct (ci_loop_Raise _ _ _ Hloop)
        as (before & line & after & Hcontent & [Hseen | Hseen] & Hrest);
        [done|]. by exists before, line, after.
    + intros (before & line & after & -> & Hmarker & Hplain & Hcount).
      rewrite ci_loop_app.
      destruct (ci_loop casefold ci_start before) as [st|e] eqn:Hbefore; [|done].
      rewrite bind_Ok. cbn [ci_loop].
      rewrite (ci_line_plain _ _ _ Hplain
                 (ci_loop_required_marker _ _ _ _ Hbefore Hmarker)).
      rewrite unpack2_Raise; [done|].
      rewrite split_length, delimiter_count_strip. lia.
  - intros e. destruct (ci_loop casefold ci_start content) as [st|e'] eqn:Hloop;
      [done|]. rewrite bind_Raise. intros [= <-].
    by apply ci_loop_exception in Hloop.
Qed.

(** X5: a blank line and a line with the pip marker, when the line has
    none of the two marker comments, can be taken out of the file: the
    reader gives the same result. *)
Theorem get_versions_from_ci_skips_line
    (before : list string) (line : string) (after : list string) :
  Str.contains "# required dependencies" line = false →
  Str.contains "# optional dependencies" line = false →
  Str.contains "- pip:" line = true ∨ Str.strip line = "" →
  get_versions_from_ci casefold (before ++ line :: after)
  = get_versions_from_ci casefold (before ++ after).
Proof.
  intros Hreq Hopt Hskip. unfold get_versions_from_ci. rewrite !ci_loop_app.
  destruct (ci_loop casefold ci_start before) as [st|e]; [|done].
  rewrite !bind_Ok. cbn [ci_loop].
  rewrite ci_line_skip, bind_Ok; [done..|]. tauto.
Qed.

Lemma ci_loop_after_optional (content : list string) (st st' : ci_state) :
  ci_loop casefold st content = Ok st' →
  seen_optional st = true →
  required_deps st' = required_deps st.
Proof.
  revert st. induction content as [|line content IH]; intros st; simpl.
  - by intros [= <-].
  - intros Hloop Hso. apply bind_eq_Ok in Hloop as (st1 & Hline & Hloop).
    pose proof (ci_line_seen _ _ _ _ Hline) as [_ Hso1].
    rewrite Hso, orb_true_r in Hso1. rewrite (IH _ Hloop Hso1).
    destruct (ci_line_cases _ _ _ _ Hline)
      as [[Hr _] | (item & version & _ & _ & _ & _ & Hput)]; [done|].
    destruct Hput as [(Hno & _) | (_ & Hr & _)]; [congruence | done].
Qed.

(** X6: the optional marker parts the file.  Without a line that has
    the optional marker the optional mapping is empty; and the required
    mapping of a file is that of its lines before an optional marker. *)
Theorem get_versions_from_ci_sections :
  (∀ content required optional,
     (∀ line, line ∈ content →
              Str.contains "# optional dependencies" line = false) →
     get_versions_from_ci casefold content = Ok (required, optional) →
     optional = ∅)
  ∧ (∀ before marker after required optional,
       Str.contains "# required dependencies" marker = false →
       Str.contains "# optional dependencies" marker = true →
       get_versions_from_ci casefold (before ++ marker :: after)
       = Ok (required, optional) →
       ∃ optional',
         get_versions_from_ci casefold before = Ok (required, optional')).
Proof.
  unfold get_versions_from_ci. split.
  - intros content required optional Hnone Hret.
    apply bind_eq_Ok in Hret as (st & Hloop & [= <- <-]).
    by destruct (ci_loop_before_optional _ _ _ _ Hloop eq_refl Hnone) as [_ ->].
  - intros before marker after required optional Hreq Hopt Hret.
    rewrite ci_loop_app in Hret.
    destruct (ci_loop casefold ci_start before) as [st0|e]; [|done].
    rewrite bind_Ok. rewrite bind_Ok in Hret. cbn [ci_loop] in Hret.
    rewrite ci_line_optional_marker, bind_Ok in Hret by done.
    apply bind_eq_Ok in Hret as (st & Hloop & [= <- <-]).
    exists (optional_deps st0).
    by rewrite (ci_loop_after_optional _ _ _ Hloop eq_refl).
Qed.

End CiFurther.

(** ** More on splitting and stripping *)

Lemma app_assoc_string (s t u : string) : (s +:+ t) +:+ u = s +:+ t +:+ u.
Proof. induction s as [|c s IH]; [done|]. by rewrite !app_String, IH. Qed.

Lemma app_empty_r (s : string) : s +:+ "" = s.
Proof. induction s as [|c s IH]; [done|]. by rewrite app_String, IH. Qed.

Lemma startswith_app (p t : string) : Str.startswith p (p +:+ t) = true.
Proof. apply startswith_spec. by exists t. Qed.

Lemma split_from_skip (sep u t : string) :
  Str.split_from sep (String.length u) (u +:+ t) = Str.split_from sep 0 t.
Proof. induction u as [|c u IH]; [done|]. rewrite app_String. exact IH. Qed.

Lemma split_no_separator (sep s : string) :
  Str.contains sep s = false → Str.split sep s = [s].
Proof.
  unfold Str.split. induction s as [|c s IH]; [done|].
  cbn [Str.contains Str.split_from]. intros [Hstart Hrest]%orb_false_iff.
  by rewrite Hstart, (IH Hrest).
Qed.

Lemma lacks_app (x : ascii) (s t : string) :
  lacks x (s +:+ t) = lacks x s && lacks x t.
Proof.
  induction s as [|c s IH]; [done|]. rewrite app_String. simpl.
  by rewrite IH, andb_assoc.
Qed.

Lemma lacks_startswith (x : ascii) (p s : string) :
  lacks x s = true → Str.startswith (String x p) s = false.
Proof.
  destruct s as [|c s]; [done|]. simpl. intros [Hc _]%andb_true_iff.
  apply negb_true_iff, bool_decide_eq_false in Hc. by rewrite decide_False.
Qed.

Lemma lacks_contains (x : ascii) (p s : string) :
  lacks x s = true → Str.contains (String x p) s = false.
Proof.
  induction s as [|c s IH]; [done|]. intros Hs.
  cbn [Str.contains]. rewrite (lacks_startswith _ _ _ Hs).
  simpl in Hs. apply andb_true_iff in Hs as [_ Hs]. by apply IH.
Qed.

Lemma whitespace_lacks (x : ascii) (s : string) :
  Str.isspace x = false → whitespace s = true → lacks x s = true.
Proof.
  intros Hx. induction s as [|c s IH]; [done|]. simpl.
  intros [Hc Hs]%andb_true_iff. rewrite (IH Hs), andb_true_r.
  apply negb_true_iff, bool_decide_eq_false. congruence.
Qed.

(** A text with one separator is split into what is before and what is
    behind the separator. *)
Lemma split_one_separator (x : ascii) (p a b : string) :
  lacks x a = true → Str.contains (String x p) b = false →
  Str.split (String x p) (a +:+ String x p +:+ b) = [a; b].
Proof.
  intros Ha Hb. unfold Str.split. induction a as [|c a IH].
  - rewrite app_empty_l, app_String. cbn [Str.split_from].
    rewrite <- app_String, startswith_app.
    replace (String.length (String x p) - 1) with (String.length p)
      by (simpl; lia).
    rewrite split_from_skip.
    by rewrite (split_no_separator _ _ Hb : Str.split_from _ 0 b = [b]).
  - simpl in Ha. apply andb_true_iff in Ha as [Hc Ha].
    apply negb_true_iff, bool_decide_eq_false in Hc.
    rewrite app_String. cbn [Str.split_from Str.startswith].
    rewrite decide_False by congruence. by rewrite (IH Ha).
Qed.

Lemma contains_app (sep a b : string) :
  Str.contains sep (a +:+ sep +:+ b) = true.
Proof.
  induction a as [|c a IH].
  - rewrite app_empty_l. destruct sep as [|x p]; [by destruct b|].
    rewrite app_String. cbn [Str.contains]. rewrite <- app_String.
    by rewrite startswith_app.
  - rewrite app_String. cbn [Str.contains]. rewrite IH. apply orb_true_r.
Qed.

(** A text with the character once does not have it doubled. *)
Lemma contains_doubled (x : ascii) (a b : string) :
  lacks x a = true → lacks x b = true →
  Str.contains (String x (String x "")) (a +:+ String x b) = false.
Proof.
  intros Ha Hb. induction a as [|c a IH].
  - rewrite app_empty_l. cbn [Str.contains].
    rewrite (lacks_contains _ _ _ Hb), orb_false_r.
    change (Str.startswith (String x (String x "")) (String x b))
      with (if decide (x = x) then Str.startswith (String x "") b else false).
    rewrite (lacks_startswith x "" b Hb). by case_decide.
  - simpl in Ha. apply andb_true_iff in Ha as [Hc Ha].
    apply negb_true_iff, bool_decide_eq_false in Hc.
    rewrite app_String. cbn [Str.contains Str.startswith].
    rewrite decide_False by congruence. by rewrite (IH Ha).
Qed.

Lemma lstrip_whitespace (ws t : string) :
  whitespace ws = true → Str.lstrip (ws +:+ t) = Str.lstrip t.
Proof.
  induction ws as [|c ws IH]; [done|]. simpl.
  intros [Hc Hws]%andb_true_iff. rewrite ?app_String. cbn [Str.lstrip].
  rewrite Hc. by apply IH.
Qed.

Lemma rstrip_whitespace (ws : string) :
  whitespace ws = true → Str.rstrip ws = "".
Proof.
  induction ws as [|c ws IH]; [done|]. simpl.
  intros [Hc Hws]%andb_true_iff. by rewrite (IH Hws), Hc.
Qed.

Lemma rstrip_spaceless_app (s ws : string) :
  spaceless s = true → whitespace ws = true → Str.rstrip (s +:+ ws) = s.
Proof.
  intros Hs Hws. induction s as [|c s IH].
  - rewrite app_empty_l. by apply rstrip_whitespace.
  - simpl in Hs. apply andb_true_iff in Hs as [Hc Hs].
    apply negb_true_iff in Hc. rewrite app_String.
    by rewrite rstrip_cons_nonspace, (IH Hs).
Qed.

Lemma rstrip_cons_nonempty (c : ascii) (s : string) :
  Str.rstrip s ≠ "" → Str.rstrip (String c s) = String c (Str.rstrip s).
Proof. intros Hs. by destruct (rstrip_cons_cases c s) as [(_ & _ & ?) | ?]. Qed.

Lemma strip_spaceless (s : string) : spaceless s = true → Str.strip s = s.
Proof.
  intros Hs. unfold Str.strip.
  assert (Str.lstrip s = s) as ->.
  { destruct s as [|c s]; [done|]. simpl in *.
    apply andb_true_iff in Hs as [Hc _]. apply negb_true_iff in Hc.
    by rewrite Hc. }
  rewrite <- (app_empty_r s) at 1. by apply rstrip_spaceless_app.
Qed.

(** The stripped text of a list item: the white space around it is gone. *)
Lemma strip_list_item (indent body tail : string) :
  whitespace indent = true → whitespace tail = true →
  spaceless body = true → body ≠ "" →
  Str.strip (indent +:+ "- " +:+ body +:+ tail) = "- " +:+ body.
Proof.
  intros Hindent Htail Hbody Hne. unfold Str.strip.
  rewrite lstrip_whitespace by done.
  change ("- " +:+ body +:+ tail) with (String "-" (String " " (body +:+ tail))).
  cbn [Str.lstrip]. change (Str.isspace "-") with false. cbv iota.
  rewrite rstrip_cons_nonspace by done.
  rewrite rstrip_cons_nonempty; rewrite rstrip_spaceless_app by done; done.
Qed.

Lemma spaceless_app (s t : string) :
  spaceless (s +:+ t) = spaceless s && spaceless t.
Proof.
  induction s as [|c s IH]; [done|]. rewrite app_String. simpl.
  by rewrite IH, andb_assoc.
Qed.

(** ** A declaration of the CI file *)

Section Declarations.

Variable casefold : string → string.

Lemma ci_loop_seen_optional (content : list string) (st st' : ci_state) :
  ci_loop casefold st content = Ok st' →
  seen_optional st' = seen_optional st || existsb sets_seen_optional content.
Proof.
  revert st. induction content as [|line content IH]; intros st; simpl.
  - intros [= <-]. by rewrite orb_false_r.
  - intros Hloop. apply bind_eq_Ok in Hloop as (st1 & Hline & Hloop).
    rewrite (IH _ Hloop). apply ci_line_seen in Hline as [_ ->].
    unfold sets_seen_optional.
    destruct (seen_optional st), (negb _ && _), (existsb _ _); done.
Qed.

(** The parts of a declaration [- name=version] or [- name==version]. *)
Lemma declaration_parts (indent name sep version tail : string) :
  sep = "=" ∨ sep = "==" →
  whitespace indent = true → whitespace tail = true →
  spaceless name = true → spaceless version = true →
  lacks "=" name = true → lacks "=" version = true →
  let line := indent +:+ "- " +:+ name +:+ sep +:+ version +:+ tail in
  Str.strip line ≠ ""
  ∧ unpack2 (Str.split (delimiter line) (Str.strip line))
    = Ok ("- " +:+ name, version).
Proof.
  intros Hsep Hindent Htail Hname Hversion Hlname Hlversion line.
  assert (Hstrip : Str.strip line = "- " +:+ name +:+ sep +:+ version).
  { subst line.
    rewrite <- (app_assoc_string name sep (version +:+ tail)).
    rewrite <- (app_assoc_string (name +:+ sep) version tail).
    rewrite strip_list_item; try done.
    - by rewrite !app_assoc_string.
    - rewrite !spaceless_app, Hname, Hversion.
      by destruct Hsep as [-> | ->].
    - destruct Hsep as [-> | ->]; by destruct name. }
  assert (Hbefore : lacks "=" (indent +:+ "- " +:+ name) = true).
  { by rewrite !lacks_app, (whitespace_lacks "=" indent), Hlname. }
  assert (Hbehind : lacks "=" (version +:+ tail) = true).
  { by rewrite lacks_app, (whitespace_lacks "=" tail), Hlversion. }
  assert (Hdelimiter : delimiter line = sep).
  { unfold delimiter. subst line. destruct Hsep as [-> | ->].
    - replace (indent +:+ "- " +:+ name +:+ "=" +:+ version +:+ tail)
        with ((indent +:+ "- " +:+ name) +:+ String "=" (version +:+ tail))
        by (by rewrite !app_assoc_string).
      by rewrite contains_doubled.
    - replace (indent +:+ "- " +:+ name +:+ "==" +:+ version +:+ tail)
        with ((indent +:+ "- " +:+ name) +:+ "==" +:+ version +:+ tail)
        by (by rewrite !app_assoc_string).
      by rewrite contains_app. }
  rewrite Hdelimiter, Hstrip. split; [done|].
  apply unpack2_Ok.
  replace ("- " +:+ name +:+ sep +:+ version)
    with (("- " +:+ name) +:+ sep +:+ version) by (by rewrite !app_assoc_string).
  destruct Hsep as [-> | ->]; apply split_one_separator;
    try (by rewrite lacks_app, Hlname); by apply lacks_contains.
Qed.

(** X7: a declaration [- name=version] or [- name==version] behind the
    required marker, with white space around it and none in it, is read
    as [name] and [version]: the case-folded name is mapped to the
    version, in the optional mapping when a line before it has set
    [seen_optional] and in the required mapping otherwise; a name of
    [EXCLUDE_DEPS] is left out. *)
Theorem get_versions_from_ci_declaration
    (before : list string) (indent name sep version tail : string)
    (required optional : gmap string string) :
  get_versions_from_ci casefold before = Ok (required, optional) →
  (∃ marker, marker ∈ before
             ∧ Str.contains "# required dependencies" marker = true) →
  sep = "=" ∨ sep = "==" →
  whitespace indent = true → whitespace tail = true →
  spaceless name = true → spaceless version = true →
  lacks "=" name = true → lacks "=" version = true →
  let line := indent +:+ "- " +:+ name +:+ sep +:+ version +:+ tail in
  Str.contains "# required dependencies" line = false →
  Str.contains "# optional dependencies" line = false →
  Str.contains "- pip:" line = false →
  get_versions_from_ci casefold (before ++ [line])
  = Ok (if decide (name ∈ EXCLUDE_DEPS) then (required, optional)
        else if existsb sets_seen_optional before
             then (required, <[casefold name := version]> optional)
             else (<[casefold name := version]> required, optional)).
Proof.
  intros Hret Hmarker Hsep Hindent Htail Hname Hversion Hlname Hlversion line
    Hreq Hopt Hpip.
  destruct (declaration_parts indent name sep version tail)
    as [Hblank Hparts]; try done. fold line in Hblank, Hparts.
  unfold get_versions_from_ci in *. rewrite ci_loop_app.
  apply bind_eq_Ok in Hret as (st & Hloop & [= <- <-]).
  rewrite Hloop, bind_Ok. cbn [ci_loop].
  rewrite ci_line_plain; [|done|by apply (ci_loop_required_marker _ _ _ _ Hloop)].
  rewrite Hparts, !bind_Ok. cbv zeta.
  change (Str.slice_from 2 ("- " +:+ name)) with name.
  rewrite (ci_loop_seen_optional _ _ _ Hloop). cbn [seen_optional ci_start orb].
  case_decide; [done|]. by destruct (existsb _ _).
Qed.

End Declarations.

(** ** More on the reader of the code table *)

Section CodeFurther.

Variable casefold : string → string.
Variable iteration_order : gset string → list string.
Hypothesis iteration_order_elements :
  ∀ X : gset string, iteration_order X ≡ₚ elements X.

(** Where an entry of the comprehension comes from. *)
Lemma normalized_code_lookup im (versions : Table.t) (key v : string) :
  normalized_code casefold im versions !! key = Some v →
  ∃ k, (k, v) ∈ versions ∧ k ≠ "pytest" ∧ key = normalized casefold im k.
Proof.
  unfold normalized_code, normalized.
  enough (∀ acc : gmap string string,
    fold_left
      (λ (d : gmap string string) (kv : string * string),
         if decide (kv.1 ≠ "pytest")
         then <[casefold (default kv.1 (im !! kv.1)) := kv.2]> d
         else d) versions acc !! key = Some v →
    acc !! key = Some v
    ∨ ∃ k, (k, v) ∈ versions ∧ k ≠ "pytest"
           ∧ key = casefold (default k (im !! k))) as H.
  { intros Hd. destruct (H ∅ Hd) as [Hempty | Hk]; [|done].
    by rewrite lookup_empty in Hempty. }
  induction versions as [|[k0 v0] versions IH]; intros acc; simpl; [auto|].
  intros Hd. destruct (IH _ Hd) as [Hacc | (k & Hin & Hk & Hkey)].
  - case_decide as Hp; [|by left]. rewrite lookup_insert in Hacc.
    case_decide as Hc; [|by left]. injection Hacc as <-.
    right. exists k0. split_and!; [apply list_elem_of_here | done..].
  - right. exists k. split_and!; [by apply list_elem_of_further | done..].
Qed.

(** X8: an entry of the table, other than the excluded package and
    [pytest], is found in the result under its normalized name with its
    version, when the entries of the table that have the same
    normalized name have the same version. *)
Theorem get_versions_from_code_lookup im (V : Table.t)
    (d : gmap string string) (k v : string) :
  (get_versions_from_code casefold iteration_order im V).1 = Ok d →
  (k, v) ∈ V → k ≠ "pytest" → k ≠ "tzdata" →
  (∀ k' v', (k', v') ∈ V → k' ≠ "pytest" → k' ≠ "tzdata" →
            normalized casefold im k' = normalized casefold im k → v' = v) →
  d !! normalized casefold im k = Some v.
Proof.
  intros Hret Hin Hp Ht Hsame.
  destruct (decide ("tzdata" ∈ Table.keys V)) as [Hhas | Hout].
  2: { by rewrite (get_versions_from_code_absent _ _
                     iteration_order_elements _ _ Hout) in Hret. }
  rewrite (get_versions_from_code_present _ _
             iteration_order_elements _ _ Hhas) in Hret.
  injection Hret as <-.
  assert (Hdom : normalized casefold im k
                 ∈ dom (normalized_code casefold im
                          (filter (λ kv, kv.1 ≠ "tzdata") V))).
  { apply normalized_code_dom. exists k, v. split_and!; [|done..].
    by apply list_elem_of_filter. }
  apply elem_of_dom in Hdom as [v' Hv']. rewrite Hv'. f_equal.
  destruct (normalized_code_lookup _ _ _ _ Hv') as (k' & Hin' & Hp' & Hkey).
  apply list_elem_of_filter in Hin' as [Ht' Hin'].
  by apply (Hsame k').
Qed.

Lemma normalized_code_without_pytest im (versions : Table.t) :
  normalized_code casefold im
    (filter (λ kv, kv.1 ≠ "tzdata") (filter (λ kv, kv.1 ≠ "pytest") versions))
  = normalized_code casefold im (filter (λ kv, kv.1 ≠ "tzdata") versions).
Proof.
  unfold normalized_code. generalize (∅ : gmap string string).
  induction versions as [|[k v] versions IH]; intros acc; [done|].
  destruct (decide (k = "pytest")) as [-> | Hp].
  - rewrite (filter_cons_False (λ kv, kv.1 ≠ "pytest")) by (simpl; tauto).
    rewrite (filter_cons_True (λ kv, kv.1 ≠ "tzdata") ("pytest", v)) by done.
    simpl. apply IH.
  - rewrite (filter_cons_True (λ kv, kv.1 ≠ "pytest")) by done.
    destruct (decide (k = "tzdata")) as [-> | Ht].
    + rewrite !(filter_cons_False (λ kv, kv.1 ≠ "tzdata")) by (simpl; tauto).
      apply IH.
    + rewrite !(filter_cons_True (λ kv, kv.1 ≠ "tzdata")) by done.
      simpl. apply IH.
Qed.

(** X9: the entry of [pytest] does not count: the reader gives the same
    result on the table without it. *)
Theorem get_versions_from_code_without_pytest im (V : Table.t) :
  (get_versions_from_code casefold iteration_order im
     (filter (λ kv, kv.1 ≠ "pytest") V)).1
  = (get_versions_from_code casefold iteration_order im V).1.
Proof.
  assert (Hkeys : "tzdata" ∈ Table.keys (filter (λ kv, kv.1 ≠ "pytest") V)
                  ↔ "tzdata" ∈ Table.keys V).
  { unfold Table.keys. rewrite !list_elem_of_fmap. split.
    - intros ([k v] & Hk & Hin). apply list_elem_of_filter in Hin as [_ Hin].
      by exists (k, v).
    - intros ([k v] & Hk & Hin). exists (k, v). split; [done|].
      apply list_elem_of_filter. split; [|done]. simpl in *. by subst k. }
  destruct (decide ("tzdata" ∈ Table.keys V)) as [Hhas | Hout].
  - rewrite !(get_versions_from_code_present _ _ iteration_order_elements)
      by (done || by apply Hkeys).
    simpl. by rewrite normalized_code_without_pytest.
  - rewrite !(get_versions_from_code_absent _ _ iteration_order_elements);
      [done | done | by rewrite Hkeys].
Qed.

End CodeFurther.

(** ** More on the reader of the manifest *)

Section SetupFurther.

Variable casefold : string → string.
Variable iteration_order : gset string → list string.
Hypothesis iteration_order_elements :
  ∀ X : gset string, iteration_order X ≡ₚ elements X.

Lemma setup_loop_exception im (acc : gmap string string)
    (dependencies : list string) (e : exception) :
  setup_loop casefold im acc dependencies = Raise e → e = ValueError.
Proof.
  revert acc. induction dependencies as [|dep deps IH]; intros acc; [done|].
  simpl. destruct (unpack2 _) as [[package version]|e'] eqn:Hparts.
  - rewrite bind_Ok. apply IH.
  - rewrite bind_Raise. intros [= <-]. by apply unpack2_exception in Hparts.
Qed.

Lemma entry_count_strip (entry : string) :
  Str.count ">=" (Str.strip entry) = Str.count ">=" entry.
Proof. by apply count_strip. Qed.

Lemma setup_loop_raises im (acc : gmap string string)
    (dependencies : list string) :
  raises (setup_loop casefold im acc dependencies)
  ↔ ∃ entry, entry ∈ dependencies ∧ Str.count ">=" entry ≠ 1.
Proof.
  revert acc. induction dependencies as [|dep deps IH]; intros acc.
  - split; [done|]. intros (entry & Hin & _). by apply elem_of_nil in Hin.
  - simpl. destruct (decide (Str.count ">=" dep = 1)) as [Hone | Hnot].
    + destruct (unpack2_length (Str.split ">=" (Str.strip dep)))
        as (a & b & ->).
      { rewrite split_length, entry_count_strip. lia. }
      rewrite bind_Ok, IH. split.
      * intros (entry & Hin & Hcount). exists entry.
        split; [by apply list_elem_of_further | done].
      * intros (entry & [-> | Hin]%elem_of_cons & Hcount); [done|].
        by exists entry.
    + rewrite unpack2_Raise by (rewrite split_length, entry_count_strip; lia).
      split; [|done]. intros _. exists dep. split; [apply list_elem_of_here|done].
Qed.

(** X11: the lines of the reader behind the two lookups, on the two
    values that the lookups have returned: they raise [ValueError]
    exactly when an entry of [all] that is not an entry of [test] does
    not have exactly one [>=], and the only other exception they raise
    is the [KeyError] of the excluded package. *)
Theorem get_versions_from_setup_entries_raise im (setup_optional test : string) :
  let dependencies :=
    remove_test_dependencies
      (Str.split Str.newline (Str.slice_from 1 setup_optional))
      (list_to_set (Str.split Str.newline (Str.slice_from 1 test))) in
  let run :=
    optional_dependencies ← setup_loop casefold im ∅ dependencies;
    pop_excluded (iteration_order EXCLUDE_DEPS) optional_dependencies in
  (run = Raise ValueError
   ↔ ∃ entry,
       entry ∈ Str.split Str.newline (Str.slice_from 1 setup_optional)
       ∧ (entry ∉ Str.split Str.newline (Str.slice_from 1 test))
       ∧ Str.count ">=" entry ≠ 1)
  ∧ (∀ e, run = Raise e → e = ValueError ∨ e = KeyError "tzdata").
Proof.
  intros dependencies run. subst run.
  assert (Hleft : ∀ entry,
    entry ∈ dependencies
    ↔ entry ∈ Str.split Str.newline (Str.slice_from 1 setup_optional)
      ∧ entry ∉ Str.split Str.newline (Str.slice_from 1 test)).
  { intros entry. unfold dependencies, remove_test_dependencies.
    rewrite list_elem_of_filter, elem_of_list_to_set. tauto. }
  pose proof (setup_loop_raises im ∅ dependencies) as Hraises.
  destruct (setup_loop casefold im ∅ dependencies) as [m|e'] eqn:Hloop.
  - rewrite bind_Ok, (pop_excluded_tzdata _ iteration_order_elements).
    unfold pop. split.
    + split.
      * by destruct (m !! "tzdata").
      * intros (entry & Hin & Hout & Hcount). exfalso. apply Hraises.
        exists entry. split; [by apply Hleft | done].
    + intros e. destruct (m !! "tzdata"); [done|]. intros [= <-]. by right.
  - rewrite bind_Raise. apply setup_loop_exception in Hloop as ->. split.
    + split; [|done]. intros _.
      destruct (proj1 Hraises I) as (entry & Hin & Hcount).
      apply Hleft in Hin as [Hin Hout]. by exists entry.
    + intros e [= <-]. by left.
Qed.

Lemma entry_parts (name version : string) :
  spaceless name = true → spaceless version = true →
  lacks ">" name = true → lacks ">" version = true →
  unpack2 (Str.split ">=" (Str.strip (name +:+ ">=" +:+ version)))
  = Ok (name, version).
Proof.
  intros Hname Hversion Hlname Hlversion.
  rewrite strip_spaceless by (by rewrite !spaceless_app, Hname, Hversion).
  apply unpack2_Ok. apply split_one_separator; [done|].
  by apply lacks_contains.
Qed.

(** X12: an entry [name>=version] of [all] that is not an entry of
    [test] is found in the result under its normalized name with its
    version, when that name is not the excluded package and the other
    entries with the same normalized name have the same version. *)
Theorem get_versions_from_setup_lookup im
    (parser : gmap string (gmap string string))
    (section : gmap string string) (setup_optional test : string)
    (d : gmap string string) (name version : string) :
  parser !! "options.extras_require" = Some section →
  section !! "all" = Some setup_optional →
  section !! "test" = Some test →
  get_versions_from_setup casefold iteration_order im parser = Ok d →
  spaceless name = true → spaceless version = true →
  lacks ">" name = true → lacks ">" version = true →
  name +:+ ">=" +:+ version
  ∈ Str.split Str.newline (Str.slice_from 1 setup_optional) →
  name +:+ ">=" +:+ version
  ∉ Str.split Str.newline (Str.slice_from 1 test) →
  normalized casefold im name ≠ "tzdata" →
  (∀ entry package version',
     entry ∈ Str.split Str.newline (Str.slice_from 1 setup_optional) →
     entry ∉ Str.split Str.newline (Str.slice_from 1 test) →
     unpack2 (Str.split ">=" (Str.strip entry)) = Ok (package, version') →
     normalized casefold im package = normalized casefold im name →
     version' = version) →
  d !! normalized casefold im name = Some version.
Proof.
  intros Hsec Hall Htest Hret Hname Hversion Hlname Hlversion Hin Hout Hkey Hsame.
  pose proof (entry_parts name version Hname Hversion Hlname Hlversion) as Hparts.
  rewrite (get_versions_from_setup_eq _ _ iteration_order_elements
             _ _ _ _ _ Hsec Hall Htest) in Hret.
  apply bind_eq_Ok in Hret as (m & Hloop & Hpop).
  apply pop_eq_Ok in Hpop as [_ ->]. rewrite lookup_delete_ne by done.
  destruct (setup_loop_dom casefold im ∅ m _ (normalized casefold im name) Hloop)
    as [v Hv].
  { right. exists (name +:+ ">=" +:+ version), name, version.
    split_and!; [|done..]. unfold remove_test_dependencies.
    rewrite list_elem_of_filter, elem_of_list_to_set. done. }
  rewrite Hv. f_equal.
  destruct (setup_loop_lookup _ _ _ _ _ _ _ Hloop Hv)
    as [Hempty | (entry & package & Hin' & Hsplit & Hk)].
  { by rewrite lookup_empty in Hempty. }
  unfold remove_test_dependencies in Hin'.
  rewrite list_elem_of_filter, elem_of_list_to_set in Hin'.
  destruct Hin' as [Hout' Hin']. by apply (Hsame entry package).
Qed.

End SetupFurther.

(** ** Splitting and joining *)

Lemma join_cons_char (sep : string) (c : ascii) (piece : string)
    (pieces : list string) :
  join sep (String c piece :: pieces) = String c (join sep (piece :: pieces)).
Proof. by destruct pieces. Qed.

Lemma join_empty_cons (sep : string) (pieces : list string) :
  pieces ≠ [] → join sep ("" :: pieces) = sep +:+ join sep pieces.
Proof. by destruct pieces. Qed.

Lemma split_from_nonempty (sep : string) (skip : nat) (s : string) :
  Str.split_from sep skip s ≠ [].
Proof.
  intros Hnil. pose proof (split_from_length sep skip s) as Hlen.
  by rewrite Hnil in Hlen.
Qed.

(** X13: the pieces of [s.split(sep)], joined with [sep], are [s]. *)
Theorem join_split (sep s : string) :
  sep ≠ "" → join sep (Str.split sep s) = s.
Proof.
  intros Hsep. unfold Str.split.
  remember (String.length s) as n eqn:Hn.
  revert s Hn. induction (lt_wf n) as [n _ IH]. intros s Hn.
  destruct s as [|c s]; [done|]. cbn [Str.split_from].
  destruct (Str.startswith sep (String c s)) eqn:Hstart.
  - apply startswith_spec in Hstart as [t Ht].
    destruct sep as [|x p]; [done|]. rewrite app_String in Ht.
    injection Ht as -> ->.
    cbn [String.length]. rewrite Nat.sub_succ, Nat.sub_0_r.
    rewrite split_from_skip, join_empty_cons by apply split_from_nonempty.
    rewrite (IH (String.length t)); [done | | done].
    subst n. simpl. rewrite app_length. lia.
  - pose proof (split_from_nonempty sep 0 s) as Hne.
    pose proof (IH (String.length s) ltac:(subst n; simpl; lia) s eq_refl) as Hs.
    destruct (Str.split_from sep 0 s) as [|piece pieces]; [done|].
    by rewrite join_cons_char, Hs.
Qed.

(** ** Which exception ends a run *)

Section Failures.

Variable casefold : string → string.
Variable iteration_order : gset string → list string.
Hypothesis iteration_order_elements :
  ∀ X : gset string, iteration_order X ≡ₚ elements X.

(** X14: the reader of the code table raises exactly when the table
    has no entry for the excluded package; it raises [KeyError] for it
    and leaves the table as it is. *)
Theorem get_versions_from_code_raises im (V : Table.t) (e : exception) :
  (get_versions_from_code casefold iteration_order im V).1 = Raise e
  ↔ ("tzdata" ∉ Table.keys V) ∧ e = KeyError "tzdata"
    ∧ (get_versions_from_code casefold iteration_order im V).2 = V.
Proof.
  destruct (decide ("tzdata" ∈ Table.keys V)) as [Hhas | Hout].
  - rewrite (get_versions_from_code_present _ _ iteration_order_elements _ _ Hhas).
    simpl. split; [done | by intros [? _]].
  - rewrite (get_versions_from_code_absent _ _ iteration_order_elements _ _ Hout).
    simpl. split; [by intros [= <-] | by intros (_ & -> & _)].
Qed.

(** X15: [main] ends with the exception of the first reader that
    raises, in the order CI file, code table, manifest. *)
Theorem main_raises (ci_path code_path setup_path : string)
    (content : list string) im (V : Table.t)
    (parser : gmap string (gmap string string)) (e : exception) :
  main casefold iteration_order ci_path code_path setup_path content im V parser
  = Raise e
  ↔ get_versions_from_ci casefold content = Raise e
    ∨ (¬ raises (get_versions_from_ci casefold content)
       ∧ (get_versions_from_code casefold iteration_order im V).1 = Raise e)
    ∨ (¬ raises (get_versions_from_ci casefold content)
       ∧ ¬ raises (get_versions_from_code casefold iteration_order im V).1
       ∧ get_versions_from_setup casefold iteration_order im parser = Raise e).
Proof.
  unfold main.
  destruct (get_versions_from_ci casefold content) as [[required ci]|e1].
  2: { rewrite bind_Raise. simpl. split.
       - intros [= ->]. by left.
       - intros [[= ->] | [H | H]]; [done | exfalso; tauto..]. }
  rewrite bind_Ok.
  destruct (get_versions_from_code casefold iteration_order im V).1 as [code|e2].
  2: { rewrite bind_Raise. simpl. split.
       - intros [= ->]. right. left. auto.
       - intros [H | [[_ [= ->]] | H]]; [discriminate H | done | exfalso; tauto]. }
  rewrite bind_Ok.
  destruct (get_versions_from_setup casefold iteration_order im parser)
    as [setup|e3]; simpl.
  - split; [discriminate|]. intros [H | [[_ H] | (_ & _ & H)]]; discriminate H.
  - split.
    + intros [= ->]. right. right. auto.
    + intros [H | [[_ H] | (_ & _ & [= ->])]]; [discriminate H.. | done].
Qed.

End Failures.

(** * The further properties on the examples *)

(** X2 on three mappings that disagree on one version. *)
Lemma compare_and_exit_reported_witness :
  ∃ packages : list string,
    NoDup packages
    ∧ (∀ package,
         package ∈ packages
         ↔ ¬ (({[ "numpy" := "1.20" ]} : gmap string string) !! package
              = ({[ "numpy" := "1.21" ]} : gmap string string) !! package
              ∧ ({[ "numpy" := "1.21" ]} : gmap string string) !! package
                = ({[ "numpy" := "1.20" ]} : gmap string string) !! package))
    ∧ written (compare_and_exit elements "ci.yaml" "_optional.py" "setup.cfg"
                 {[ "numpy" := "1.20" ]} {[ "numpy" := "1.21" ]}
                 {[ "numpy" := "1.20" ]})
      = match packages with
        | [] => []
        | _ =>
            report_head "ci.yaml" "_optional.py" "setup.cfg"
            :: map (report_entry "ci.yaml" "_optional.py" "setup.cfg"
                      {[ "numpy" := "1.20" ]} {[ "numpy" := "1.21" ]}
                      {[ "numpy" := "1.20" ]}) packages
        end.
Proof.
  exact (compare_and_exit_reported elements elements_order
           "ci.yaml" "_optional.py" "setup.cfg"
           {[ "numpy" := "1.20" ]} {[ "numpy" := "1.21" ]} {[ "numpy" := "1.20" ]}).
Defined.

(** X3 on a file without the required marker. *)
Lemma get_versions_from_ci_no_required_marker_witness :
  get_versions_from_ci ascii_casefold
    [nl "  # optional dependencies"; nl "  - numpy"]
  = Ok (∅, ∅).
Proof.
  apply (get_versions_from_ci_no_required_marker ascii_casefold).
  intros line Hin. apply list_elem_of_In in Hin. simpl in Hin.
  repeat (destruct Hin as [<- | Hin]; [vm_compute; reflexivity|]).
  destruct Hin.
Defined.

(** X5 on a pip marker behind the required marker. *)
Lemma get_versions_from_ci_skips_line_witness :
  get_versions_from_ci ascii_casefold
    ([nl "  # required dependencies"] ++ nl "  - pip:" :: [nl "  - numpy=1.20"])
  = get_versions_from_ci ascii_casefold
      ([nl "  # required dependencies"] ++ [nl "  - numpy=1.20"]).
Proof.
  apply (get_versions_from_ci_skips_line ascii_casefold).
  - vm_compute. reflexivity.
  - vm_compute. reflexivity.
  - left. vm_compute. reflexivity.
Defined.

(** X7 on a declaration behind the two markers. *)
Lemma get_versions_from_ci_declaration_witness :
  get_versions_from_ci ascii_casefold
    ([nl "  # required dependencies"; nl "  # optional dependencies"]
     ++ ["  " +:+ "- " +:+ "NumPy" +:+ "==" +:+ "1.20" +:+ Str.newline])
  = Ok (∅, {[ "numpy" := "1.20" ]}).
Proof.
  etrans.
  - apply (get_versions_from_ci_declaration ascii_casefold
             [nl "  # required dependencies"; nl "  # optional dependencies"]
             "  " "NumPy" "==" "1.20" Str.newline ∅ ∅).
    + vm_compute. reflexivity.
    + exists (nl "  # required dependencies").
      split; [apply list_elem_of_here | vm_compute; reflexivity].
    + by right.
    + vm_compute. reflexivity.
    + vm_compute. reflexivity.
    + vm_compute. reflexivity.
    + vm_compute. reflexivity.
    + vm_compute. reflexivity.
    + vm_compute. reflexivity.
    + vm_compute. reflexivity.
    + vm_compute. reflexivity.
    + vm_compute. reflexivity.
  - vm_compute. reflexivity.
Defined.

(** X8 on a table with an import name. *)
Lemma get_versions_from_code_lookup_witness :
  ({[ "beautifulsoup4" := "4.9.3" ]} : gmap string string)
  !! normalized ascii_casefold alias_map "bs4" = Some "4.9.3".
Proof.
  apply (get_versions_from_code_lookup ascii_casefold elements elements_order
           alias_map alias_versions).
  - vm_compute. reflexivity.
  - apply list_elem_of_here.
  - discriminate.
  - discriminate.
  - intros k' v' Hin Hp Ht _. apply list_elem_of_In in Hin. simpl in Hin.
    destruct Hin as [[= <- <-] | [[= <- <-] | []]]; [reflexivity|].
    by destruct Ht.
Defined.

(** X9 on a table with [pytest]. *)
Lemma get_versions_from_code_without_pytest_witness :
  (get_versions_from_code ascii_casefold elements ∅
     (filter (λ kv, kv.1 ≠ "pytest") sample_versions)).1
  = (get_versions_from_code ascii_casefold elements ∅ sample_versions).1.
Proof.
  exact (get_versions_from_code_without_pytest ascii_casefold elements
           elements_order ∅ sample_versions).
Defined.

(** X11 on an [all] list with an entry without [>=]. *)
Lemma get_versions_from_setup_entries_raise_witness :
  (optional_dependencies ←
     setup_loop ascii_casefold ∅ ∅
       (remove_test_dependencies
          (Str.split Str.newline
             (Str.slice_from 1 (Str.newline +:+ nl "numpy>=1.20" +:+ "pandas")))
          (list_to_set
             (Str.split Str.newline
                (Str.slice_from 1 (Str.newline +:+ "pytest>=6.0")))));
   pop_excluded (elements EXCLUDE_DEPS) optional_dependencies)
  = Raise ValueError.
Proof.
  apply (proj1 (get_versions_from_setup_entries_raise ascii_casefold elements
                  elements_order ∅
                  (Str.newline +:+ nl "numpy>=1.20" +:+ "pandas")
                  (Str.newline +:+ "pytest>=6.0"))).
  exists "pandas". split_and!.
  - vm_compute. apply list_elem_of_further, list_elem_of_here.
  - intros Hin. vm_compute in Hin. apply list_elem_of_In in Hin.
    simpl in Hin. destruct Hin as [Heq | []]. discriminate Heq.
  - intros Hcount. vm_compute in Hcount. discriminate Hcount.
Defined.

(** X12 on the manifest of the examples. *)
Lemma get_versions_from_setup_lookup_witness :
  ({[ "numpy" := "1.20" ]} : gmap string string)
  !! normalized ascii_casefold ∅ "numpy" = Some "1.20".
Proof.
  apply (get_versions_from_setup_lookup ascii_casefold elements elements_order
           ∅ sample_parser
           {[ "all" := Str.newline +:+ nl "numpy>=1.20" +:+ nl "pytest>=6.0"
                       +:+ "tzdata>=2022a";
              "test" := Str.newline +:+ nl "pytest>=6.0"
                        +:+ "hypothesis>=5.5.3" ]}
           (Str.newline +:+ nl "numpy>=1.20" +:+ nl "pytest>=6.0"
            +:+ "tzdata>=2022a")
           (Str.newline +:+ nl "pytest>=6.0" +:+ "hypothesis>=5.5.3")
           {[ "numpy" := "1.20" ]} "numpy" "1.20" eq_refl eq_refl eq_refl).
  - vm_compute. reflexivity.
  - vm_compute. reflexivity.
  - vm_compute. reflexivity.
  - vm_compute. reflexivity.
  - vm_compute. reflexivity.
  - vm_compute. apply list_elem_of_here.
  - intros Hin. vm_compute in Hin. apply list_elem_of_In in Hin.
    simpl in Hin. destruct Hin as [Heq | [Heq | []]]; discriminate Heq.
  - intros Heq. vm_compute in Heq. discriminate Heq.
  - intros entry package version' Hin Hout Hsplit Hnorm.
    vm_compute in Hin. apply list_elem_of_In in Hin. simpl in Hin.
    destruct Hin as [<- | [<- | [<- | []]]].
    + vm_compute in Hsplit. by injection Hsplit as _ <-.
    + exfalso. apply Hout. vm_compute. apply list_elem_of_here.
    + vm_compute in Hsplit. injection Hsplit as <- _.
      vm_compute in Hnorm. discriminate Hnorm.
Defined.

(** X13 on a line of the CI file. *)
Lemma join_split_witness :
  join "==" (Str.split "==" "- numpy==1.20") = "- numpy==1.20".
Proof. apply join_split. discriminate. Defined.

(** X14 on a table without the excluded package. *)
Lemma get_versions_from_code_raises_witness :
  (get_versions_from_code ascii_casefold elements ∅ [("numpy", "1.20")]).1
  = Raise (KeyError "tzdata").
Proof.
  apply (get_versions_from_code_raises ascii_casefold elements elements_order
           ∅ [("numpy", "1.20")] (KeyError "tzdata")).
  split_and!.
  - intros Hin. apply list_elem_of_In in Hin. simpl in Hin.
    destruct Hin as [Heq | []]. discriminate Heq.
  - reflexivity.
  - vm_compute. reflexivity.
Defined.
